(** * Biblioteca: loan lifecycle, lending policies and universal search

    A shallow embedding of the TypeScript sources

      - Socio.ts / Prestamo.ts         (src/socio_actualizado.ts)
      - PoliticasPrestamo.ts / Biblioteca.ts (src/politicas_prestamo.ts)
      - SistemasBusqueda.ts            (src/sistemas_busqueda.ts)

    Conventions of the embedding.

    - A JavaScript [Date] is its time value: milliseconds since the epoch,
      an integer [Z].  The local time zone is taken to be UTC, so the
      calendar getters and setters are the ECMAScript abstract operations
      (Day, TimeWithinDay, YearFromTime, MonthFromTime, DateFromTime,
      MakeDay, MakeDate) computed on the proleptic Gregorian calendar.
      The range check of TimeClip is not modelled.
    - [new Date()] reads the clock.  Every method takes the reading as its
      first argument [ahora]; the clock is frozen for the duration of one
      call.
    - Numbers that the program only uses as integers are [Z]; the quotient
      handed to [Math.ceil] / [Math.floor] is the exact rational quotient.
      [Infinity] (Empleado.getMaximoLibros) has its own constructor.
    - Objects compared with [===] or [indexOf] (Libro, Prestamo) carry the
      reference they were allocated at; the comparison is on references.
      Both kinds of object are immutable once constructed.
    - A [Socio] is mutated in place through the reference that [buscarSocio]
      returns: in the embedding that reference is the index of the member in
      [socios], and the mutation is an update of the list at that index.
    - [throw] does not roll anything back: the monad [M] returns the state
      reached together with either the exception or the result. *)

From Stdlib Require Import ZArith Lia.
From stdpp Require Import base tactics option list strings sorting.

(** ** The runtime's Date, in UTC *)

Module Fecha.
Local Open Scope Z_scope.

Definition msPerDay : Z := 1000 * 60 * 60 * 24.

Definition Day (t : Z) : Z := t / msPerDay.
Definition TimeWithinDay (t : Z) : Z := t mod msPerDay.

(** Position of a day number inside its 400-year era (146097 days), with
    eras starting on 1 March of a year divisible by 400. *)
Definition diasPorEra : Z := 146097.
Definition desplazamiento : Z := 719468.

Definition yoe_de (doe : Z) : Z :=
  (doe - doe / 1460 + doe / 36524 - doe / 146096) / 365.
Definition doy_de (doe : Z) : Z :=
  doe - (365 * yoe_de doe + yoe_de doe / 4 - yoe_de doe / 100).
Definition mp_de (doe : Z) : Z := (5 * doy_de doe + 2) / 153.

(** Month number 1..12 from the March-based month index 0..11. *)
Definition mes_civil (mp : Z) : Z := if mp <? 10 then mp + 3 else mp - 9.

Definition MonthFromTime (t : Z) : Z :=
  let doe := (Day t + desplazamiento) mod diasPorEra in
  mes_civil (mp_de doe) - 1.

Definition DateFromTime (t : Z) : Z :=
  let doe := (Day t + desplazamiento) mod diasPorEra in
  doy_de doe - (153 * mp_de doe + 2) / 5 + 1.

Definition YearFromTime (t : Z) : Z :=
  let z := Day t + desplazamiento in
  let doe := z mod diasPorEra in
  yoe_de doe + (z / diasPorEra) * 400
    + (if mes_civil (mp_de doe) <=? 2 then 1 else 0).

(** MakeDay(year, month, date): the day number of the first day of the
    month (months beyond 0..11 carry into the year), plus [date - 1]. *)
Definition MakeDay (year month date : Z) : Z :=
  let ym := year + month / 12 in
  let m := month mod 12 + 1 in
  let y := if m <=? 2 then ym - 1 else ym in
  let era := y / 400 in
  let yoe := y mod 400 in
  let mp := if 2 <? m then m - 3 else m + 9 in
  let doy := (153 * mp + 2) / 5 in
  let doe := yoe * 365 + yoe / 4 - yoe / 100 + doy in
  era * diasPorEra + doe - desplazamiento + date - 1.

Definition MakeDate (day time : Z) : Z := day * msPerDay + time.

(** The methods of [Date.prototype] the program calls. *)
Definition getTime (t : Z) : Z := t.
Definition getMonth (t : Z) : Z := MonthFromTime t.
Definition getDate (t : Z) : Z := DateFromTime t.
Definition getFullYear (t : Z) : Z := YearFromTime t.

Definition setDate (t dt : Z) : Z :=
  MakeDate (MakeDay (YearFromTime t) (MonthFromTime t) dt) (TimeWithinDay t).

Definition setFullYear (t y : Z) : Z :=
  MakeDate (MakeDay y (MonthFromTime t) (DateFromTime t)) (TimeWithinDay t).

(** [Math.ceil (a / b)] and [Math.floor (a / b)] for integers [a], [b > 0]. *)
Definition Math_ceil_div (a b : Z) : Z := - ((- a) / b).
Definition Math_floor_div (a b : Z) : Z := a / b.
End Fecha.

(** ** Libro.ts *)

(** Modelled from the spec: the class [Libro] (Libro.ts is imported by all
    three sources but is not among them).  "Book: identified by ISBN; has
    title, author. Immutable once created."  The sources construct it with
    [new Libro(titulo, autor, isbn)], read [titulo], [autor] and [isbn], and
    compare books with [===]: [libro_ref] is the object's reference. *)
Record Libro := {
  libro_ref : nat;
  titulo : string;
  autor : string;
  isbn : string
}.

(** [a === b] on two Libro objects. *)
Definition mismoLibro (a b : Libro) : bool :=
  bool_decide (libro_ref a = libro_ref b).

(** ** Prestamo.ts *)

Module TipoPrestamo.
Inductive t := REGULAR | CORTO | REFERENCIA | DIGITAL.
End TipoPrestamo.

(** The concrete subclasses of the abstract class [Prestamo]. *)
Inductive ClasePrestamo :=
  PrestamoRegular | PrestamoCorto | PrestamoReferencia | PrestamoDigital.

Global Instance ClasePrestamo_eq_dec : EqDecision ClasePrestamo.
Proof. solve_decision. Defined.

Record Prestamo := {
  prestamo_ref : nat;
  clase : ClasePrestamo;
  libro : Libro;
  socioId : Z;
  fechaPrestamo : Z;
  fechaVencimiento : Z
}.

(** [a === b] on two Prestamo objects. *)
Definition mismoPrestamo (a b : Prestamo) : bool :=
  bool_decide (prestamo_ref a = prestamo_ref b).

Module PrestamoRegular.
Definition DURACION_DIAS : Z := 14.
Definition MULTA_POR_DIA : Z := 50.
End PrestamoRegular.

Module PrestamoCorto.
Definition DURACION_DIAS : Z := 7.
Definition MULTA_POR_DIA : Z := 100.
End PrestamoCorto.

Section Prestamo.
Local Open Scope Z_scope.
Import Fecha.

(** [calcularVencimiento], dispatched on the subclass; the argument is
    [this.fechaPrestamo]. *)
Definition calcularVencimiento (c : ClasePrestamo) (fechaPrestamo : Z) : Z :=
  match c with
  | PrestamoRegular =>
      let vencimiento := fechaPrestamo in
      setDate vencimiento (getDate vencimiento + PrestamoRegular.DURACION_DIAS)
  | PrestamoCorto =>
      let vencimiento := fechaPrestamo in
      setDate vencimiento (getDate vencimiento + PrestamoCorto.DURACION_DIAS)
  | PrestamoReferencia => fechaPrestamo
  | PrestamoDigital =>
      let vencimiento := fechaPrestamo in
      setFullYear vencimiento (getFullYear vencimiento + 100)
  end.

(** The constructor of [Prestamo]: [fechaPrestamo = new Date()], then the
    due date is computed once. *)
Definition nuevoPrestamo (ref : nat) (ahora : Z) (c : ClasePrestamo)
    (l : Libro) (sid : Z) : Prestamo :=
  {| prestamo_ref := ref; clase := c; libro := l; socioId := sid;
     fechaPrestamo := ahora;
     fechaVencimiento := calcularVencimiento c ahora |}.

Definition vencimiento (p : Prestamo) : Z := fechaVencimiento p.

Definition estaVencido (ahora : Z) (p : Prestamo) : bool :=
  ahora >? fechaVencimiento p.

Definition diasVencido (ahora : Z) (p : Prestamo) : Z :=
  if negb (estaVencido ahora p) then 0
  else
    let hoy := ahora in
    let diferencia := getTime hoy - getTime (fechaVencimiento p) in
    Math_ceil_div diferencia msPerDay.

Definition calcularMulta (ahora : Z) (p : Prestamo) : Z :=
  match clase p with
  | PrestamoRegular => diasVencido ahora p * PrestamoRegular.MULTA_POR_DIA
  | PrestamoCorto => diasVencido ahora p * PrestamoCorto.MULTA_POR_DIA
  | PrestamoReferencia => 0
  | PrestamoDigital => 0
  end.

(** [PrestamoReferencia.puedeRetirar]. *)
Definition PrestamoReferencia_puedeRetirar (p : Prestamo) : bool := false.
End Prestamo.

(** ** Socio.ts *)

Module TipoSocio.
Inductive t := REGULAR | VIP | EMPLEADO | VISITANTE.
End TipoSocio.

Inductive ClaseSocio := SocioRegular | SocioVIP | Empleado | Visitante.

(** A JavaScript number that is a natural number or [Infinity]. *)
Inductive Numero := Finito (n : nat) | Infinity.

(** [a < b] for a length [a] and a limit [b]. *)
Definition menorQue (a : nat) (b : Numero) : bool :=
  match b with
  | Finito n => bool_decide (a < n)
  | Infinity => true
  end.

Record Socio := {
  clase_socio : ClaseSocio;
  id : Z;
  nombre : string;
  apellido : string;
  prestamos : list Prestamo
}.

Section Socio.
Local Open Scope Z_scope.

Definition nombreCompleto (s : Socio) : string :=
  nombre s +:+ " " +:+ apellido s.

Definition getDuracionPrestamo (s : Socio) : Z :=
  match clase_socio s with
  | SocioRegular => 14
  | SocioVIP => 21
  | Empleado => 30
  | Visitante => 0
  end.

Definition getMaximoLibros (s : Socio) : Numero :=
  match clase_socio s with
  | SocioRegular => Finito 3
  | SocioVIP => Finito 5
  | Empleado => Infinity
  | Visitante => Finito 0
  end.

Definition conPrestamos (s : Socio) (ps : list Prestamo) : Socio :=
  {| clase_socio := clase_socio s; id := id s; nombre := nombre s;
     apellido := apellido s; prestamos := ps |}.

Definition agregarPrestamo (p : Prestamo) (s : Socio) : Socio :=
  conPrestamos s (prestamos s ++ [p]).

(** [arr.indexOf(p)]: [None] stands for [-1]. *)
Definition indexOf (p : Prestamo) (arr : list Prestamo) : option nat :=
  fst <$> list_find (λ q, mismoPrestamo q p = true) arr.

(** [const i = arr.indexOf(p); if (i > -1) arr.splice(i, 1)]. *)
Definition quitar (p : Prestamo) (arr : list Prestamo) : list Prestamo :=
  match indexOf p arr with
  | Some indice => delete indice arr
  | None => arr
  end.

Definition removerPrestamo (p : Prestamo) (s : Socio) : Socio :=
  conPrestamos s (quitar p (prestamos s)).

Definition tienePrestadoLibro (l : Libro) (s : Socio) : option Prestamo :=
  snd <$> list_find (λ p, mismoLibro (libro p) l = true) (prestamos s).

Definition librosEnPrestamo (s : Socio) : nat := length (prestamos s).

(** [Socio.puedeRetirar], overridden by [Visitante]. *)
Definition Socio_puedeRetirar (s : Socio) (l : Libro) : bool :=
  match clase_socio s with
  | Visitante => false
  | _ => menorQue (length (prestamos s)) (getMaximoLibros s)
  end.

Definition tieneLibrosVencidos (ahora : Z) (s : Socio) : bool :=
  existsb (estaVencido ahora) (prestamos s).

Definition getLibrosVencidos (ahora : Z) (s : Socio) : list Prestamo :=
  List.filter (estaVencido ahora) (prestamos s).

(** The base-class [getMultaTotal]: a left-to-right [reduce] from 0. *)
Definition Socio_getMultaTotal (ahora : Z) (s : Socio) : Z :=
  foldl (λ total p, total + calcularMulta ahora p) 0 (prestamos s).

(** [getMultaTotal], overridden by [SocioVIP]. *)
Definition getMultaTotal (ahora : Z) (s : Socio) : Z :=
  match clase_socio s with
  | SocioVIP => 0
  | _ => Socio_getMultaTotal ahora s
  end.

Definition getPrestamos (s : Socio) : list Prestamo := prestamos s.
End Socio.

Module SocioFactory.
Definition crearSocio (tipo : TipoSocio.t) (id : Z) (nombre apellido : string)
    : Socio :=
  let c := match tipo with
           | TipoSocio.REGULAR => SocioRegular
           | TipoSocio.VIP => SocioVIP
           | TipoSocio.EMPLEADO => Empleado
           | TipoSocio.VISITANTE => Visitante
           end in
  {| clase_socio := c; id := id; nombre := nombre; apellido := apellido;
     prestamos := [] |}.
End SocioFactory.

(** ** PoliticasPrestamo.ts *)

Module TipoPolitica.
Inductive t := ESTRICTA | FLEXIBLE | ESTUDIANTE | DOCENTE.
End TipoPolitica.

(** The four implementations of [IPoliticaPrestamo]; they have no fields. *)
Inductive IPoliticaPrestamo :=
  PoliticaEstricta | PoliticaFlexible | PoliticaEstudiante | PoliticaDocente.

Module PoliticaEstudiante.
Local Open Scope Z_scope.
Definition MESES_EXAMENES : list Z := [5; 6; 11; 12].
(** [MESES_EXAMENES.includes(new Date().getMonth())]. *)
Definition enExamenes (ahora : Z) : bool :=
  bool_decide (Fecha.getMonth ahora ∈ MESES_EXAMENES).
End PoliticaEstudiante.

Module PoliticaDocente.
Local Open Scope Z_scope.
Definition DURACION_EXTENDIDA : Z := 60.
Definition MAX_RENOVACIONES : Z := 5.
Definition contarRenovaciones (p : Prestamo) : Z := 0.
End PoliticaDocente.

Module Politica.
Local Open Scope Z_scope.

Definition puedeRetirar (pol : IPoliticaPrestamo) (ahora : Z)
    (socio : Socio) (l : Libro) : bool :=
  match pol with
  | PoliticaEstricta => negb (tieneLibrosVencidos ahora socio)
  | PoliticaFlexible => true
  | PoliticaEstudiante => true
  | PoliticaDocente => true
  end.

Definition calcularDuracion (pol : IPoliticaPrestamo) (ahora : Z)
    (socio : Socio) (duracionBase : Z) : Z :=
  match pol with
  | PoliticaEstricta => duracionBase
  | PoliticaFlexible =>
      if tieneLibrosVencidos ahora socio
      then Fecha.Math_floor_div duracionBase 2
      else duracionBase
  | PoliticaEstudiante =>
      if PoliticaEstudiante.enExamenes ahora
      then duracionBase * 2
      else duracionBase
  | PoliticaDocente => PoliticaDocente.DURACION_EXTENDIDA
  end.

Definition permiteRenovacion (pol : IPoliticaPrestamo) (ahora : Z)
    (socio : Socio) (p : Prestamo) : bool :=
  match pol with
  | PoliticaEstricta =>
      negb (tieneLibrosVencidos ahora socio) && negb (estaVencido ahora p)
  | PoliticaFlexible => diasVencido ahora p <=? 7
  | PoliticaEstudiante =>
      if PoliticaEstudiante.enExamenes ahora then true
      else negb (estaVencido ahora p)
  | PoliticaDocente =>
      let renovacionesActuales := PoliticaDocente.contarRenovaciones p in
      renovacionesActuales <? PoliticaDocente.MAX_RENOVACIONES
  end.
End Politica.

Module PoliticaFactory.
Definition crearPolitica (tipo : TipoPolitica.t) : IPoliticaPrestamo :=
  match tipo with
  | TipoPolitica.ESTRICTA => PoliticaEstricta
  | TipoPolitica.FLEXIBLE => PoliticaFlexible
  | TipoPolitica.ESTUDIANTE => PoliticaEstudiante
  | TipoPolitica.DOCENTE => PoliticaDocente
  end.
End PoliticaFactory.

(** ** Exceptions, console and the state monad *)

(** What a [throw] carries: [new Error(mensaje)] of the program, or a
    [TypeError] raised by the runtime. *)
Inductive Excepcion :=
| Error (mensaje : string)
| TypeError (mensaje : string).

(** The error kinds of the library service, by the message thrown.  A
    refused renewal has its own message; [renovarPrestamo] throws it where
    [crearPrestamo] throws [PolicyDenied]. *)
Definition NotFound : Excepcion := Error "Socio o libro no encontrado".
Definition Unavailable : Excepcion := Error "Libro no está disponible".
Definition PolicyDenied : Excepcion :=
  Error "No se puede realizar el préstamo según la política actual".
Definition NotWithdrawable : Excepcion :=
  Error "Los libros de referencia solo pueden consultarse en biblioteca".
Definition NotBorrowed : Excepcion :=
  Error "El socio no tiene este libro prestado".
Definition RenewalDenied : Excepcion :=
  Error "No se puede renovar el préstamo según la política actual".

(** A line written to the console: the template and the value printed. *)
Inductive Salida :=
| ConsoleLog (plantilla : string) (valor : Z)
| ConsoleWarn (plantilla : string) (fuente : string) (error : Excepcion).

(** The fields of the class [Biblioteca] that the loan workflow reads and
    writes.  The search collaborators it also holds are independent of the
    workflow; they are modelled in the module [Busqueda] below. *)
Record Biblioteca := {
  inventario : list Libro;
  socios : list Socio;
  prestamosActivos : list Prestamo;
  politicaActual : IPoliticaPrestamo
}.

(** The heap allocator ([siguienteRef] is the next fresh reference), the
    console and the one [Biblioteca] object. *)
Record Mundo := {
  biblioteca : Biblioteca;
  consola : list Salida;
  siguienteRef : nat
}.

Definition M (A : Type) : Type := Mundo → Mundo * (Excepcion + A).

Global Instance M_ret : MRet M := λ A x w, (w, inr x).

Global Instance M_bind : MBind M := λ A B f m w,
  match m w with
  | (w', inl e) => (w', inl e)
  | (w', inr x) => f x w'
  end.

Definition throw {A} (e : Excepcion) : M A := λ w, (w, inl e).

Definition this : M Biblioteca := λ w, (w, inr (biblioteca w)).

Definition asignar (f : Biblioteca → Biblioteca) : M unit := λ w,
  ({| biblioteca := f (biblioteca w); consola := consola w;
      siguienteRef := siguienteRef w |}, inr tt).

(** [new C(...)]: the reference of the object allocated. *)
Definition new : M nat := λ w,
  ({| biblioteca := biblioteca w; consola := consola w;
      siguienteRef := S (siguienteRef w) |}, inr (siguienteRef w)).

Definition console (s : Salida) : M unit := λ w,
  ({| biblioteca := biblioteca w; consola := consola w ++ [s];
      siguienteRef := siguienteRef w |}, inr tt).

(** ** Prestamo.ts: the factory *)

Module PrestamoFactory.
Definition crearPrestamo (ahora : Z) (tipo : TipoPrestamo.t) (l : Libro)
    (sid : Z) : M Prestamo :=
  let c := match tipo with
           | TipoPrestamo.REGULAR => PrestamoRegular
           | TipoPrestamo.CORTO => PrestamoCorto
           | TipoPrestamo.REFERENCIA => PrestamoReferencia
           | TipoPrestamo.DIGITAL => PrestamoDigital
           end in
  ref ← new;
  mret (nuevoPrestamo ref ahora c l sid).
End PrestamoFactory.

(** ** Biblioteca.ts *)

Section Biblioteca.
Local Open Scope Z_scope.

Definition conInventario (b : Biblioteca) (x : list Libro) : Biblioteca :=
  {| inventario := x; socios := socios b;
     prestamosActivos := prestamosActivos b;
     politicaActual := politicaActual b |}.
Definition conSocios (b : Biblioteca) (x : list Socio) : Biblioteca :=
  {| inventario := inventario b; socios := x;
     prestamosActivos := prestamosActivos b;
     politicaActual := politicaActual b |}.
Definition conPrestamosActivos (b : Biblioteca) (x : list Prestamo)
    : Biblioteca :=
  {| inventario := inventario b; socios := socios b;
     prestamosActivos := x; politicaActual := politicaActual b |}.
Definition conPolitica (b : Biblioteca) (x : IPoliticaPrestamo)
    : Biblioteca :=
  {| inventario := inventario b; socios := socios b;
     prestamosActivos := prestamosActivos b; politicaActual := x |}.

(** The constructor: empty collections, the FLEXIBLE policy by default. *)
Definition nuevaBiblioteca : Biblioteca :=
  {| inventario := []; socios := []; prestamosActivos := [];
     politicaActual := PoliticaFactory.crearPolitica TipoPolitica.FLEXIBLE |}.

Definition mundoInicial : Mundo :=
  {| biblioteca := nuevaBiblioteca; consola := []; siguienteRef := 0 |}.

Definition cambiarPolitica (tipoPolitica : TipoPolitica.t) : M unit :=
  asignar (λ b, conPolitica b (PoliticaFactory.crearPolitica tipoPolitica)).

Definition agregarLibro (titulo autor isbn : string) : M Libro :=
  ref ← new;
  let libroCreado :=
    {| libro_ref := ref; titulo := titulo; autor := autor; isbn := isbn |} in
  asignar (λ b, conInventario b (inventario b ++ [libroCreado]));;
  mret libroCreado.

Definition buscarLibro (isbn_ : string) (b : Biblioteca) : option Libro :=
  snd <$> list_find (λ l, isbn l = isbn_) (inventario b).

Definition registrarSocio (tipo : TipoSocio.t) (id : Z)
    (nombre apellido : string) : M Socio :=
  let socioCreado := SocioFactory.crearSocio tipo id nombre apellido in
  asignar (λ b, conSocios b (socios b ++ [socioCreado]));;
  mret socioCreado.

(** [buscarSocio] returns a reference to the member object: its index in
    [socios], together with the member's current value. *)
Definition buscarSocio (id_ : Z) (b : Biblioteca) : option (nat * Socio) :=
  list_find (λ s, id s = id_) (socios b).

(** A method call [socio.m(...)] that mutates the member referenced. *)
Definition mutarSocio (indice : nat) (f : Socio → Socio) : M unit :=
  asignar (λ b, conSocios b (alter f indice (socios b))).

Definition estaLibroPrestado (l : Libro) (b : Biblioteca) : bool :=
  existsb (λ p, mismoLibro (libro p) l) (prestamosActivos b).

(** [import("./Prestamo").PrestamoReferencia], the right operand of the
    [instanceof] in [crearPrestamo].  In an expression [import(...)] is the
    dynamic import: it evaluates to a Promise, and a Promise has no
    property [PrestamoReferencia], so the operand is [undefined]. *)
Definition import_Prestamo_PrestamoReferencia : option ClasePrestamo := None.

(** [p instanceof C]: a [TypeError] when [C] is not an object. *)
Definition instanceof (p : Prestamo) (C : option ClasePrestamo) : M bool :=
  match C with
  | Some c => mret (bool_decide (clase p = c))
  | None => throw (TypeError "Right-hand side of 'instanceof' is not an object")
  end.

Definition esReferencia (tipo : TipoPrestamo.t) : bool :=
  match tipo with TipoPrestamo.REFERENCIA => true | _ => false end.

Definition crearPrestamo (ahora : Z) (socioId : Z) (libroISBN : string)
    (tipoPrestamo : TipoPrestamo.t) : M unit :=
  b ← this;
  match buscarSocio socioId b, buscarLibro libroISBN b with
  | Some (indice, socio), Some libro =>
      if estaLibroPrestado libro b then throw Unavailable else
      if negb (Politica.puedeRetirar (politicaActual b) ahora socio libro)
      then throw PolicyDenied else
      prestamo ← PrestamoFactory.crearPrestamo ahora tipoPrestamo libro socioId;
      ((if esReferencia tipoPrestamo then
         esInstancia ← instanceof prestamo import_Prestamo_PrestamoReferencia;
         if (esInstancia : bool) then
           if negb (PrestamoReferencia_puedeRetirar prestamo)
           then throw NotWithdrawable else mret tt
         else mret tt
       else mret tt) : M unit);;
      asignar (λ b, conPrestamosActivos b (prestamosActivos b ++ [prestamo]));;
      mutarSocio indice (agregarPrestamo prestamo)
  | _, _ => throw NotFound
  end.

Definition devolverLibro (ahora : Z) (socioId : Z) (libroISBN : string)
    : M unit :=
  b ← this;
  match buscarSocio socioId b, buscarLibro libroISBN b with
  | Some (indice, socio), Some libro =>
      match tienePrestadoLibro libro socio with
      | None => throw NotBorrowed
      | Some prestamo =>
          let multa := calcularMulta ahora prestamo in
          ((if multa >? 0 then console (ConsoleLog "Multa generada: $" multa)
            else mret tt) : M unit);;
          mutarSocio indice (removerPrestamo prestamo);;
          b ← this;
          match indexOf prestamo (prestamosActivos b) with
          | Some indicePrestamo =>
              asignar (λ b, conPrestamosActivos b
                              (delete indicePrestamo (prestamosActivos b)))
          | None => mret tt
          end
      end
  | _, _ => throw NotFound
  end.

Definition renovarPrestamo (ahora : Z) (socioId : Z) (libroISBN : string)
    : M unit :=
  b ← this;
  match buscarSocio socioId b, buscarLibro libroISBN b with
  | Some (indice, socio), Some libro =>
      match tienePrestadoLibro libro socio with
      | None => throw NotBorrowed
      | Some prestamo =>
          if negb (Politica.permiteRenovacion (politicaActual b) ahora socio
                     prestamo)
          then throw RenewalDenied else
          let nuevaDuracion :=
            Politica.calcularDuracion (politicaActual b) ahora socio
              (getDuracionPrestamo socio) in
          let nuevoVencimiento :=
            Fecha.setDate ahora (Fecha.getDate ahora + nuevaDuracion) in
          console (ConsoleLog "Préstamo renovado hasta: " nuevoVencimiento)
      end
  | _, _ => throw NotFound
  end.

Definition obtenerPrestamosVencidos (ahora : Z) (b : Biblioteca)
    : list Prestamo :=
  List.filter (estaVencido ahora) (prestamosActivos b).

Definition obtenerPrestamosPorSocio (socioId_ : Z) (b : Biblioteca)
    : list Prestamo :=
  List.filter (λ p, bool_decide (socioId p = socioId_)) (prestamosActivos b).

(** The calls a client can make on the library, and a run of them. *)
Inductive Llamada :=
| AgregarLibro (titulo autor isbn : string)
| RegistrarSocio (tipo : TipoSocio.t) (id : Z) (nombre apellido : string)
| CambiarPolitica (tipo : TipoPolitica.t)
| CrearPrestamo (ahora socioId : Z) (libroISBN : string)
    (tipo : TipoPrestamo.t)
| DevolverLibro (ahora socioId : Z) (libroISBN : string)
| RenovarPrestamo (ahora socioId : Z) (libroISBN : string).

Definition ejecutar (c : Llamada) : M unit :=
  match c with
  | AgregarLibro t a i => agregarLibro t a i;; mret tt
  | RegistrarSocio t i n a => registrarSocio t i n a;; mret tt
  | CambiarPolitica t => cambiarPolitica t
  | CrearPrestamo ahora s l t => crearPrestamo ahora s l t
  | DevolverLibro ahora s l => devolverLibro ahora s l
  | RenovarPrestamo ahora s l => renovarPrestamo ahora s l
  end.

(** The state after a call, whether it returned or threw. *)
Definition tras (c : Llamada) (w : Mundo) : Mundo := fst (ejecutar c w).

Definition correr (cs : list Llamada) (w : Mundo) : Mundo :=
  foldl (λ w c, tras c w) w cs.

(** States reachable from the freshly constructed library. *)
Inductive alcanzable : Mundo → Prop :=
| alcanzable_inicial : alcanzable mundoInicial
| alcanzable_paso w c : alcanzable w → alcanzable (tras c w).
End Biblioteca.

(** ** SistemasBusqueda.ts *)

Module Busqueda.
Inductive TipoRecurso := pdf | video | audio | articulo.
Inductive EstadoDocumento := bueno | regular | deteriorado.

Record RecursoDigital := {
  rd_titulo : string;
  rd_url : string;
  rd_tipo : TipoRecurso;
  rd_fechaPublicacion : Z
}.

Record DocumentoHistorico := {
  dh_titulo : string;
  dh_fechaCreacion : Z;
  dh_autor : string;
  dh_categoria : string;
  dh_estado : EstadoDocumento
}.

Record ArticuloAcademico := {
  aa_titulo : string;
  aa_autores : list string;
  aa_revista : string;
  aa_anio : Z;
  aa_palabrasClave : list string;
  aa_abstract : string
}.

(** A search result is typed [any]: an instance of one of the four classes
    that [obtenerTipoResultado] recognises, or some other value. *)
Inductive Item :=
| ItemLibro (l : Libro)
| ItemRecursoDigital (r : RecursoDigital)
| ItemDocumentoHistorico (d : DocumentoHistorico)
| ItemArticuloAcademico (a : ArticuloAcademico)
| ItemOtro (valor : string).

(** The interface [IBuscable].  A call either returns its array or throws. *)
Record IBuscable := {
  buscarPor : string → Excepcion + list Item;
  filtrar : (Item → bool) → Excepcion + list Item
}.

Record ResultadoBusqueda := {
  tipo : string;
  resultado : Item;
  fuente : string
}.

(** [Map<string, IBuscable>]: entries in insertion order; [set] on a key
    already present replaces the value and keeps the entry's position. *)
Abbreviation Mapa := (list (string * IBuscable)).

Fixpoint Map_set (nombre : string) (sistema : IBuscable) (m : Mapa) : Mapa :=
  match m with
  | [] => [(nombre, sistema)]
  | (k, v) :: resto =>
      if bool_decide (k = nombre) then (k, sistema) :: resto
      else (k, v) :: Map_set nombre sistema resto
  end.

Definition Map_delete (nombre : string) (m : Mapa) : Mapa :=
  List.filter (λ kv, negb (bool_decide (fst kv = nombre))) m.

Definition Map_get (nombre : string) (m : Mapa) : option IBuscable :=
  (λ hallado, snd (snd hallado)) <$> list_find (λ kv, fst kv = nombre) m.

Definition agregarSistema (nombre : string) (sistema : IBuscable)
    (sistemas : Mapa) : Mapa :=
  Map_set nombre sistema sistemas.

Definition eliminarSistema (nombre : string) (sistemas : Mapa) : Mapa :=
  Map_delete nombre sistemas.

Definition obtenerTipoResultado (resultado : Item) : string :=
  match resultado with
  | ItemLibro _ => "Libro"
  | ItemRecursoDigital _ => "Recurso Digital"
  | ItemDocumentoHistorico _ => "Documento Histórico"
  | ItemArticuloAcademico _ => "Artículo Académico"
  | ItemOtro _ => "Desconocido"
  end.

Definition etiquetar (nombre : string) (r : Item) : ResultadoBusqueda :=
  {| tipo := obtenerTipoResultado r; resultado := r; fuente := nombre |}.

(** The state of the loop of [buscarEnTodos]: the array [resultados] and
    the console. *)
Abbreviation Acumulado := (list ResultadoBusqueda * list Salida)%type.

(** One iteration of [for (const [nombre, sistema] of this.sistemas)]:
    the [try] block pushes every result of the system, the [catch] block
    writes a warning. *)
Definition iteracion (criterio : string) (acc : Acumulado)
    (entrada : string * IBuscable) : Acumulado :=
  let '(resultados, consola) := acc in
  let '(nombre, sistema) := entrada in
  match buscarPor sistema criterio with
  | inr resultadosSistema =>
      (foldl (λ resultados r, resultados ++ [etiquetar nombre r])
         resultados resultadosSistema, consola)
  | inl error =>
      (resultados, consola ++ [ConsoleWarn "Error buscando en " nombre error])
  end.

Definition buscarEnTodos (criterio : string) (sistemas : Mapa) : Acumulado :=
  foldl (iteracion criterio) ([], []) sistemas.

Definition buscarEnSistema (nombreSistema criterio : string)
    (sistemas : Mapa) : Excepcion + list Item :=
  match Map_get nombreSistema sistemas with
  | None => inl (Error ("Sistema " +:+ nombreSistema +:+ " no encontrado"))
  | Some sistema => buscarPor sistema criterio
  end.

Definition obtenerSistemasDisponibles (sistemas : Mapa) : list string :=
  fst <$> sistemas.
End Busqueda.

(** ** The synchronisation invariant of the two loan collections *)

Section Invariante.

(** Every loan object occurs once in [prestamosActivos] and once in the
    collection of exactly one member; both views hold the same loans; and
    references handed out so far are below the allocator's next one. *)
Record sincronizado (w : Mundo) : Prop := {
  sinc_activos_unicos :
    NoDup (prestamo_ref <$> prestamosActivos (biblioteca w));
  sinc_activos_asignados : ∀ p,
    p ∈ prestamosActivos (biblioteca w) → prestamo_ref p < siguienteRef w;
  sinc_socio_unicos : ∀ i s,
    socios (biblioteca w) !! i = Some s → NoDup (prestamo_ref <$> prestamos s);
  sinc_socio_activo : ∀ i s p,
    socios (biblioteca w) !! i = Some s → p ∈ prestamos s →
    p ∈ prestamosActivos (biblioteca w);
  sinc_activo_socio : ∀ p,
    p ∈ prestamosActivos (biblioteca w) →
    ∃ i s, socios (biblioteca w) !! i = Some s ∧ p ∈ prestamos s;
  sinc_un_socio : ∀ i j s s' p,
    socios (biblioteca w) !! i = Some s → socios (biblioteca w) !! j = Some s' →
    p ∈ prestamos s → p ∈ prestamos s' → i = j
}.
End Invariante.

(** ** Scenarios used to exercise the model *)

Section Escenarios.
Local Open Scope Z_scope.
Import Busqueda.

(** 2026-11-02T12:00:00Z. *)
Definition instante0 : Z := 1793620800000.

(** A Visitante and one book, under the default policy. *)
Definition mundoVisitante : Mundo :=
  correr [RegistrarSocio TipoSocio.VISITANTE 1 "Ana" "Paz";
          AgregarLibro "El Hobbit" "Tolkien" "isbn-1"] mundoInicial.

(** A SocioRegular who borrowed "isbn-1" at [instante0]; "isbn-2" is free. *)
Definition mundoPrestado : Mundo :=
  correr [RegistrarSocio TipoSocio.REGULAR 1 "Ana" "Paz";
          AgregarLibro "El Hobbit" "Tolkien" "isbn-1";
          AgregarLibro "Rayuela" "Cortazar" "isbn-2";
          CrearPrestamo instante0 1 "isbn-1" TipoPrestamo.REGULAR] mundoInicial.

(** Fifteen days later the loan of "isbn-1" is one day overdue. *)
Definition quinceDiasDespues : Z := instante0 + 15 * Fecha.msPerDay.

Definition mundoEstricto : Mundo :=
  tras (CambiarPolitica TipoPolitica.ESTRICTA) mundoPrestado.

Definition mundoFlexible : Mundo :=
  tras (CambiarPolitica TipoPolitica.FLEXIBLE) mundoEstricto.

(** A collaborator that answers every query with the same items, and one
    whose [buscarPor] throws. *)
Definition sistemaFijo (items : list Item) : IBuscable :=
  {| buscarPor := λ _, inr items; filtrar := λ f, inr (List.filter f items) |}.

Definition sistemaRoto (e : Excepcion) : IBuscable :=
  {| buscarPor := λ _, inl e; filtrar := λ _, inl e |}.

Definition elHobbit : Libro :=
  {| libro_ref := 0; titulo := "El Hobbit"; autor := "Tolkien"; isbn := "isbn-1" |}.

Definition ensayoTolkien : ArticuloAcademico :=
  {| aa_titulo := "Tolkien y el mito"; aa_autores := ["Shippey"];
     aa_revista := "Mythlore"; aa_anio := 1982; aa_palabrasClave := ["Tolkien"];
     aa_abstract := "" |}.

Definition tresSistemas : list (string * IBuscable) :=
  agregarSistema "Base de Conocimiento" (sistemaFijo [ItemArticuloAcademico ensayoTolkien])
    (agregarSistema "Biblioteca Digital" (sistemaRoto (Error "sin conexion"))
       (agregarSistema "Catálogo Biblioteca" (sistemaFijo [ItemLibro elHobbit]) [])).
End Escenarios.

(** ** Biblioteca.ts: getters and reports *)

Section BibliotecaInformes.
Local Open Scope Z_scope.

Definition obtenerPoliticaActual (b : Biblioteca) : IPoliticaPrestamo :=
  politicaActual b.

Definition totalLibros (b : Biblioteca) : nat := length (inventario b).
Definition totalSocios (b : Biblioteca) : nat := length (socios b).
Definition prestamosActuales (b : Biblioteca) : nat :=
  length (prestamosActivos b).
Definition prestamosVencidos (ahora : Z) (b : Biblioteca) : nat :=
  length (obtenerPrestamosVencidos ahora b).

(** [arr.sort(cmp)].  The sort of the runtime is stable, and for a
    comparator that is a total preorder the result of a stable sort does not
    depend on the algorithm: it is computed here by insertion, an element
    going before the first element it does not compare greater than. *)
Fixpoint insertarOrdenado {A} (cmp : A → A → Z) (x : A) (l : list A)
    : list A :=
  match l with
  | [] => [x]
  | y :: resto =>
      if cmp x y <=? 0 then x :: y :: resto
      else y :: insertarOrdenado cmp x resto
  end.

Definition sort {A} (cmp : A → A → Z) (arr : list A) : list A :=
  foldr (insertarOrdenado cmp) [] arr.

Record ReporteMulta := {
  rm_socioId : Z;
  rm_nombreCompleto : string;
  rm_multa : Z
}.

Definition generarReporteMultas (ahora : Z) (b : Biblioteca)
    : list ReporteMulta :=
  sort (λ a b, rm_multa b - rm_multa a)
    (List.filter (λ reporte, rm_multa reporte >? 0)
       ((λ socio, {| rm_socioId := id socio;
                     rm_nombreCompleto := nombreCompleto socio;
                     rm_multa := getMultaTotal ahora socio |})
          <$> socios b)).

(** [Map<string, number>] of [generarReporteLibrosPopulares]: entries in
    insertion order, [set] keeps the position of a key already present. *)
Definition contadores_get (k : string) (m : list (string * Z)) : option Z :=
  (λ hallado, snd (snd hallado)) <$> list_find (λ kv, fst kv = k) m.

Fixpoint contadores_set (k : string) (v : Z) (m : list (string * Z))
    : list (string * Z) :=
  match m with
  | [] => [(k, v)]
  | (k', v') :: resto =>
      if bool_decide (k' = k) then (k', v) :: resto
      else (k', v') :: contadores_set k v resto
  end.

(** [contadores.get(isbn) || 0]. *)
Definition oCero (v : option Z) : Z :=
  match v with
  | Some n => if n =? 0 then 0 else n
  | None => 0
  end.

Record LibroPopular := {
  lp_libro : option Libro;
  lp_vecesPrestado : Z
}.

Definition contarPrestamos (ps : list Prestamo) : list (string * Z) :=
  foldl (λ contadores prestamo,
           let isbn_ := isbn (libro prestamo) in
           contadores_set isbn_ (oCero (contadores_get isbn_ contadores) + 1)
             contadores)
    [] ps.

(** [this.buscarLibro(isbn)!]: the [!] only silences the type checker, the
    field holds what [buscarLibro] returns. *)
Definition generarReporteLibrosPopulares (b : Biblioteca)
    : list LibroPopular :=
  sort (λ a b, lp_vecesPrestado b - lp_vecesPrestado a)
    ((λ entrada : string * Z,
        {| lp_libro := buscarLibro (fst entrada) b;
           lp_vecesPrestado := snd entrada |})
       <$> contarPrestamos (prestamosActivos b)).
End BibliotecaInformes.

(** ** SistemasBusqueda.ts: the remaining methods *)

Section BusquedaResto.
Import Busqueda.

(** One iteration of the loop of [filtrarEnTodos]. *)
Definition iteracionFiltrar (condicion : Item → bool)
    (acc : list ResultadoBusqueda * list Salida)
    (entrada : string * IBuscable) : list ResultadoBusqueda * list Salida :=
  let '(resultados, consola) := acc in
  let '(nombre, sistema) := entrada in
  match filtrar sistema condicion with
  | inr resultadosSistema =>
      (foldl (λ resultados r, resultados ++ [etiquetar nombre r])
         resultados resultadosSistema, consola)
  | inl error =>
      (resultados, consola ++ [ConsoleWarn "Error filtrando en " nombre error])
  end.

Definition filtrarEnTodos (condicion : Item → bool)
    (sistemas : list (string * IBuscable))
    : list ResultadoBusqueda * list Salida :=
  foldl (iteracionFiltrar condicion) ([], []) sistemas.

(** [s.includes(sub)]: [sub] occurs in [s] at some position. *)
Fixpoint includes (s sub : string) : bool :=
  String.prefix sub s ||
  match s with
  | EmptyString => false
  | String _ resto => includes resto sub
  end.

(** [String.prototype.toLowerCase] belongs to the runtime and follows the
    Unicode case tables; the catalogue is parameterised by it. *)
Variable toLowerCase : string → string.

(** The class [CatalogoBiblioteca], over the array [libros] it was
    constructed with. *)
Definition CatalogoBiblioteca_buscarPor (libros : list Libro)
    (criterio : string) : list Libro :=
  let criterioLower := toLowerCase criterio in
  List.filter (λ libro,
       includes (toLowerCase (titulo libro)) criterioLower
    || includes (toLowerCase (autor libro)) criterioLower
    || includes (isbn libro) criterio) libros.

Definition CatalogoBiblioteca_filtrar (libros : list Libro)
    (condicion : Libro → bool) : list Libro :=
  List.filter condicion libros.

Definition CatalogoBiblioteca_buscarPorAutor (libros : list Libro)
    (autor_ : string) : list Libro :=
  List.filter (λ libro,
    includes (toLowerCase (autor libro)) (toLowerCase autor_)) libros.

Definition CatalogoBiblioteca_buscarPorISBN (libros : list Libro)
    (isbn_ : string) : option Libro :=
  snd <$> list_find (λ libro, isbn libro = isbn_) libros.

(** The catalogue seen through [IBuscable]. *)
Definition CatalogoBiblioteca (libros : list Libro) : IBuscable :=
  {| buscarPor := λ criterio,
       inr (ItemLibro <$> CatalogoBiblioteca_buscarPor libros criterio);
     filtrar := λ condicion,
       inr (ItemLibro <$>
              CatalogoBiblioteca_filtrar libros (λ l, condicion (ItemLibro l))) |}.
End BusquedaResto.

(** ** Coherence of the loans with the inventory and the members *)

Section Coherencia.

(** The position in [socios] of the member that [buscarSocio] returns. *)
Definition indiceSocio (id_ : Z) (b : Biblioteca) : option nat :=
  fst <$> buscarSocio id_ b.

(** Every active loan is for the book that its ISBN resolves to and for a
    member id that resolves; no two active loans are for the same book
    object; and the collection of a member is the part of
    [prestamosActivos] carrying the member's id if [buscarSocio] resolves
    that id to this member, and is empty otherwise. *)
Record coherente (w : Mundo) : Prop := {
  coh_libro_resuelto : ∀ p,
    p ∈ prestamosActivos (biblioteca w) →
    buscarLibro (isbn (libro p)) (biblioteca w) = Some (libro p);
  coh_un_prestamo_por_libro :
    NoDup ((λ p, libro_ref (libro p)) <$> prestamosActivos (biblioteca w));
  coh_socio_resuelto : ∀ p,
    p ∈ prestamosActivos (biblioteca w) →
    is_Some (indiceSocio (socioId p) (biblioteca w));
  coh_por_socio : ∀ j s,
    socios (biblioteca w) !! j = Some s →
    prestamos s
      = if decide (indiceSocio (id s) (biblioteca w) = Some j)
        then obtenerPrestamosPorSocio (id s) (biblioteca w)
        else []
}.
End Coherencia.

(** ** Proof automation *)

(** Unfolds the monad so that a call becomes a function of the world. *)
Ltac desplegar :=
  unfold mbind, M_bind, mret, M_ret, throw, this, asignar, console, new,
    mutarSocio, instanceof, import_Prestamo_PrestamoReferencia,
    PrestamoFactory.crearPrestamo in *.

(** * Facts about the Date model *)

Section FechaFacts.
Import Fecha.
Local Open Scope Z_scope.

Lemma yoe_de_rango doe : 0 <= doe < 146097 → 0 <= yoe_de doe <= 399.
Proof. unfold yoe_de. intros. Z.div_mod_to_equations. lia. Qed.

Lemma doy_de_rango doe : 0 <= doe < 146097 → 0 <= doy_de doe <= 365.
Proof. unfold doy_de, yoe_de. intros. Z.div_mod_to_equations. lia. Qed.

Lemma mp_de_rango doe : 0 <= doe < 146097 → 0 <= mp_de doe <= 11.
Proof.
  intros H. pose proof (doy_de_rango doe H). unfold mp_de.
  Z.div_mod_to_equations. lia.
Qed.

Lemma mes_civil_rango mp : 0 <= mp <= 11 → 1 <= mes_civil mp <= 12.
Proof. unfold mes_civil. intros. destruct (Z.ltb_spec mp 10); lia. Qed.

Lemma doe_rango z : 0 <= z mod diasPorEra < 146097.
Proof. unfold diasPorEra. apply Z.mod_pos_bound. lia. Qed.

Lemma MonthFromTime_rango t : 0 <= MonthFromTime t <= 11.
Proof.
  unfold MonthFromTime.
  pose proof (mes_civil_rango _ (mp_de_rango _ (doe_rango (Day t + desplazamiento)))).
  cbv zeta. lia.
Qed.

Lemma MakeDay_de_civil t d :
  MakeDay (YearFromTime t) (MonthFromTime t) d = Day t + d - DateFromTime t.
Proof.
  pose proof (MonthFromTime_rango t) as Hm.
  unfold MakeDay, YearFromTime, DateFromTime.
  unfold MonthFromTime in *. cbv zeta in *.
  set (z := Day t + desplazamiento) in *.
  pose proof (doe_rango z) as Hdoe.
  pose proof (Z.div_mod z diasPorEra ltac:(unfold diasPorEra; lia)) as Hz.
  set (doe := z mod diasPorEra) in *. set (era := z / diasPorEra) in *.
  pose proof (yoe_de_rango doe Hdoe) as Hy.
  pose proof (mp_de_rango doe Hdoe) as Hmp.
  set (mp := mp_de doe) in *.
  assert (Hdoy : doy_de doe = doe - (365 * yoe_de doe + yoe_de doe / 4 - yoe_de doe / 100)) by reflexivity.
  set (yoe := yoe_de doe) in *. set (doy := doy_de doe) in *.
  rewrite (Z.div_small (mes_civil mp - 1) 12) by lia.
  rewrite (Z.mod_small (mes_civil mp - 1) 12) by lia.
  replace (mes_civil mp - 1 + 1) with (mes_civil mp) by lia.
  assert (Hyear : (if mes_civil mp <=? 2
                   then yoe + era * 400 + (if mes_civil mp <=? 2 then 1 else 0) + 0 - 1
                   else yoe + era * 400 + (if mes_civil mp <=? 2 then 1 else 0) + 0)
                  = yoe + era * 400).
  { destruct (mes_civil mp <=? 2); lia. }
  rewrite Hyear.
  rewrite Z.div_add by lia. rewrite Z.mod_add by lia.
  rewrite (Z.div_small yoe 400) by lia. rewrite (Z.mod_small yoe 400) by lia.
  assert (Hmp' : (if 2 <? mes_civil mp then mes_civil mp - 3 else mes_civil mp + 9) = mp).
  { unfold mes_civil. destruct (Z.ltb_spec mp 10).
    - destruct (Z.ltb_spec 2 (mp + 3)); lia.
    - destruct (Z.ltb_spec 2 (mp - 9)); lia. }
  rewrite Hmp'. unfold desplazamiento, diasPorEra in *. subst z. lia.
Qed.

Lemma setDate_getDate t n : setDate t (getDate t + n) = t + n * msPerDay.
Proof.
  unfold setDate, getDate, MakeDate. rewrite MakeDay_de_civil.
  unfold Day, TimeWithinDay.
  pose proof (Z.div_mod t msPerDay ltac:(unfold msPerDay; lia)). lia.
Qed.

Lemma Math_ceil_div_spec a b :
  0 < b → (Math_ceil_div a b - 1) * b < a <= Math_ceil_div a b * b.
Proof.
  intros Hb. unfold Math_ceil_div.
  pose proof (Z.div_mod (- a) b ltac:(lia)).
  pose proof (Z.mod_pos_bound (- a) b Hb). nia.
Qed.
End FechaFacts.


(** * Prestamo: overdue days *)

Section PrestamoFacts.
Import Fecha.
Local Open Scope Z_scope.

Lemma estaVencido_true ahora p :
  estaVencido ahora p = true ↔ fechaVencimiento p < ahora.
Proof. unfold estaVencido. rewrite Z.gtb_ltb, Z.ltb_lt. reflexivity. Qed.

Lemma estaVencido_false ahora p :
  estaVencido ahora p = false ↔ ahora <= fechaVencimiento p.
Proof. unfold estaVencido. rewrite Z.gtb_ltb, Z.ltb_ge. reflexivity. Qed.

(** C7. For every loan and every clock reading [ahora]: [diasVencido] is 0
    when [ahora <= fechaVencimiento]; otherwise it is the ceiling of the
    elapsed time in days, i.e. the integer [n] with
    [(n - 1) days < ahora - fechaVencimiento <= n days].  In particular 25
    hours past due count as 2 days and 1 hour past due as 1 day. *)
Theorem C7_diasVencido_techo (p : Prestamo) (ahora : Z) :
  (ahora <= fechaVencimiento p → diasVencido ahora p = 0) ∧
  (fechaVencimiento p < ahora →
     (diasVencido ahora p - 1) * msPerDay < ahora - fechaVencimiento p
       <= diasVencido ahora p * msPerDay) ∧
  diasVencido (fechaVencimiento p + 25 * (60 * 60 * 1000)) p = 2 ∧
  diasVencido (fechaVencimiento p + 1 * (60 * 60 * 1000)) p = 1.
Proof.
  assert (Hgen : ∀ a, fechaVencimiento p < a →
            (diasVencido a p - 1) * msPerDay < a - fechaVencimiento p
              <= diasVencido a p * msPerDay).
  { intros a Ha. unfold diasVencido.
    rewrite (proj2 (estaVencido_true a p) Ha). simpl. unfold getTime.
    apply Math_ceil_div_spec. unfold msPerDay. lia. }
  split; [|split; [|split]].
  - intros H. unfold diasVencido.
    rewrite (proj2 (estaVencido_false ahora p) H). reflexivity.
  - apply Hgen.
  - pose proof (Hgen (fechaVencimiento p + 25 * (60 * 60 * 1000)) ltac:(lia)) as H.
    unfold msPerDay in H. lia.
  - pose proof (Hgen (fechaVencimiento p + 1 * (60 * 60 * 1000)) ltac:(lia)) as H.
    unfold msPerDay in H. lia.
Qed.

(** The loan of "isbn-1" in [mundoPrestado]. *)
Lemma C7_witness :
  ∃ p, prestamosActivos (biblioteca mundoPrestado) !! 0%nat = Some p ∧
    diasVencido instante0 p = 0 ∧
    (diasVencido quinceDiasDespues p - 1) * msPerDay
      < quinceDiasDespues - fechaVencimiento p
      <= diasVencido quinceDiasDespues p * msPerDay.
Proof.
  eexists. split; [reflexivity|]. split.
  - apply (proj1 (C7_diasVencido_techo _ instante0)). vm_compute. discriminate.
  - apply (proj1 (proj2 (C7_diasVencido_techo _ quinceDiasDespues))).
    vm_compute. reflexivity.
Defined.
End PrestamoFacts.

(** * Socio: total fine *)

Section SocioFacts.
Local Open Scope Z_scope.

(** C8. Whatever loans a SocioVIP holds, [getMultaTotal] returns 0, even
    when the loans' own [calcularMulta] is not zero: there is a VIP member
    whose only loan owes 50 and whose base-class total would be 50. *)
Theorem C8_VIP_multa_cero :
  (∀ ahora id nombre apellido (ps : list Prestamo),
     getMultaTotal ahora
       {| clase_socio := SocioVIP; id := id; nombre := nombre;
          apellido := apellido; prestamos := ps |} = 0) ∧
  (∃ ahora s p,
     clase_socio s = SocioVIP ∧ prestamos s = [p] ∧
     calcularMulta ahora p = 50 ∧ Socio_getMultaTotal ahora s = 50 ∧
     getMultaTotal ahora s = 0).
Proof.
  split; [reflexivity|].
  exists quinceDiasDespues.
  exists {| clase_socio := SocioVIP; id := 7; nombre := "Eva"; apellido := "Sol";
            prestamos := [nuevoPrestamo 0 instante0 PrestamoRegular elHobbit 7] |}.
  eexists. repeat split; vm_compute; reflexivity.
Qed.
End SocioFacts.

(** * PoliticaEstudiante: exam months *)

Section PoliticaFacts.
Import Fecha.
Local Open Scope Z_scope.

Lemma getMonth_rango t : 0 <= getMonth t <= 11.
Proof. apply MonthFromTime_rango. Qed.

Lemma enExamenes_true t :
  PoliticaEstudiante.enExamenes t = true ↔
  getMonth t = 5 ∨ getMonth t = 6 ∨ getMonth t = 11.
Proof.
  unfold PoliticaEstudiante.enExamenes, PoliticaEstudiante.MESES_EXAMENES.
  rewrite bool_decide_eq_true. pose proof (getMonth_rango t).
  rewrite !elem_of_cons, elem_of_nil. lia.
Qed.

(** C10. [MESES_EXAMENES] is [5; 6; 11; 12], [getMonth] is always in 0..11,
    so the entry 12 never matches: the exam-month behaviour (doubled
    duration, unconditional renewal) applies exactly in the months 5, 6 and
    11 (June, July, December), and never in January (month 0), where the
    duration is the base and renewal requires a loan that is not overdue. *)
Theorem C10_meses_de_examen :
  PoliticaEstudiante.MESES_EXAMENES = [5; 6; 11; 12] ∧
  (∀ t, 0 <= getMonth t <= 11 ∧ getMonth t ≠ 12) ∧
  (∀ t socio base p,
     (getMonth t = 5 ∨ getMonth t = 6 ∨ getMonth t = 11) ∧
       Politica.calcularDuracion PoliticaEstudiante t socio base = base * 2 ∧
       Politica.permiteRenovacion PoliticaEstudiante t socio p = true
     ∨
     (getMonth t ≠ 5 ∧ getMonth t ≠ 6 ∧ getMonth t ≠ 11) ∧
       Politica.calcularDuracion PoliticaEstudiante t socio base = base ∧
       Politica.permiteRenovacion PoliticaEstudiante t socio p
         = negb (estaVencido t p)) ∧
  (∃ t, getMonth t = 0 ∧
     ∀ socio base p,
       Politica.calcularDuracion PoliticaEstudiante t socio base = base ∧
       Politica.permiteRenovacion PoliticaEstudiante t socio p
         = negb (estaVencido t p)) ∧
  (∃ t, getMonth t = 5 ∧
     ∀ socio base,
       Politica.calcularDuracion PoliticaEstudiante t socio base = base * 2).
Proof.
  split; [reflexivity|]. split; [|split; [|split]].
  - intros t. pose proof (getMonth_rango t). lia.
  - intros t socio base p. simpl.
    destruct (PoliticaEstudiante.enExamenes t) eqn:E.
    + left. apply enExamenes_true in E. auto.
    + right. split; [|auto].
      assert (¬ (getMonth t = 5 ∨ getMonth t = 6 ∨ getMonth t = 11)) as Hn.
      { rewrite <- enExamenes_true, E. discriminate. }
      lia.
  - (* 2027-01-15T12:00:00Z *)
    exists (instante0 + 74 * msPerDay). split; [vm_compute; reflexivity|].
    intros. split; reflexivity.
  - (* 2027-06-15T12:00:00Z *)
    exists (instante0 + 225 * msPerDay). split; [vm_compute; reflexivity|].
    intros. reflexivity.
Qed.
End PoliticaFacts.

(** * BuscadorUniversal: aggregation *)

Section BusquedaFacts.
Import Busqueda.

(** What one collaborator contributes to the aggregate: its results, each
    tagged with the system's name and the type label, nothing if it throws;
    and the warning it leaves on the console. *)
Local Abbreviation aporte criterio :=
  (λ entrada : string * IBuscable,
     match buscarPor (snd entrada) criterio with
     | inr rs =>
         (λ r, {| tipo := obtenerTipoResultado r; resultado := r;
                  fuente := fst entrada |}) <$> rs
     | inl _ => []
     end).

Local Abbreviation aviso criterio :=
  (λ entrada : string * IBuscable,
     match buscarPor (snd entrada) criterio with
     | inr _ => []
     | inl e => [ConsoleWarn "Error buscando en " (fst entrada) e]
     end).

Lemma foldl_push nombre (rs : list Item) (acc : list ResultadoBusqueda) :
  foldl (λ resultados r, resultados ++ [etiquetar nombre r]) acc rs
  = acc ++ (etiquetar nombre <$> rs).
Proof.
  revert acc. induction rs as [|r rs IH]; intros acc; simpl.
  - by rewrite app_nil_r.
  - rewrite IH, <- app_assoc. reflexivity.
Qed.

Lemma buscarEnTodos_desde criterio (sistemas : list (string * IBuscable))
    (acc : list ResultadoBusqueda * list Salida) :
  foldl (iteracion criterio) acc sistemas
  = (fst acc ++ concat (aporte criterio <$> sistemas),
     snd acc ++ concat (aviso criterio <$> sistemas)).
Proof.
  revert acc. induction sistemas as [|[nombre sistema] resto IH];
    intros [resultados consola]; simpl.
  - by rewrite !app_nil_r.
  - rewrite IH. simpl.
    destruct (buscarPor sistema criterio) as [e|rs]; simpl.
    + by rewrite <- app_assoc.
    + by rewrite foldl_push, <- app_assoc.
Qed.

(** C9. For every search term and every map of registered collaborators,
    [buscarEnTodos] returns, in registration order, the results of every
    collaborator whose [buscarPor] returns, each tagged with the system's
    name and its type label; a collaborator whose [buscarPor] throws
    contributes no result and one console warning, and the others' results
    are still returned.  The type label is "Libro" for a Libro, "Recurso
    Digital" for a RecursoDigital, "Documento Histórico" for a
    DocumentoHistorico, "Artículo Académico" for an ArticuloAcademico and
    "Desconocido" for anything else. *)
Theorem C9_buscarEnTodos_resiliente (criterio : string)
    (sistemas : list (string * IBuscable)) :
  fst (buscarEnTodos criterio sistemas)
    = concat ((λ entrada : string * IBuscable,
                 match buscarPor (snd entrada) criterio with
                 | inr rs =>
                     (λ r, {| tipo := obtenerTipoResultado r; resultado := r;
                              fuente := fst entrada |}) <$> rs
                 | inl _ => []
                 end) <$> sistemas) ∧
  snd (buscarEnTodos criterio sistemas)
    = concat ((λ entrada : string * IBuscable,
                 match buscarPor (snd entrada) criterio with
                 | inr _ => []
                 | inl e => [ConsoleWarn "Error buscando en " (fst entrada) e]
                 end) <$> sistemas) ∧
  (∀ r, r ∈ fst (buscarEnTodos criterio sistemas) ↔
     ∃ nombre sistema rs x,
       (nombre, sistema) ∈ sistemas ∧ buscarPor sistema criterio = inr rs ∧
       x ∈ rs ∧
       r = {| tipo := obtenerTipoResultado x; resultado := x;
              fuente := nombre |}) ∧
  (∀ r, r ∈ fst (buscarEnTodos criterio sistemas) →
     tipo r = match resultado r with
              | ItemLibro _ => "Libro"
              | ItemRecursoDigital _ => "Recurso Digital"
              | ItemDocumentoHistorico _ => "Documento Histórico"
              | ItemArticuloAcademico _ => "Artículo Académico"
              | ItemOtro _ => "Desconocido"
              end) ∧
  (∀ l d h a v,
     obtenerTipoResultado (ItemLibro l) = "Libro" ∧
     obtenerTipoResultado (ItemRecursoDigital d) = "Recurso Digital" ∧
     obtenerTipoResultado (ItemDocumentoHistorico h) = "Documento Histórico" ∧
     obtenerTipoResultado (ItemArticuloAcademico a) = "Artículo Académico" ∧
     obtenerTipoResultado (ItemOtro v) = "Desconocido").
Proof.
  unfold buscarEnTodos. rewrite buscarEnTodos_desde. simpl.
  split; [done|]. split; [done|].
  assert (Hmem : ∀ r,
    r ∈ concat ((λ entrada : string * IBuscable,
                   match buscarPor (snd entrada) criterio with
                   | inr rs =>
                       (λ r, {| tipo := obtenerTipoResultado r; resultado := r;
                                fuente := fst entrada |}) <$> rs
                   | inl _ => []
                   end) <$> sistemas) ↔
     ∃ nombre sistema rs x,
       (nombre, sistema) ∈ sistemas ∧ buscarPor sistema criterio = inr rs ∧
       x ∈ rs ∧
       r = {| tipo := obtenerTipoResultado x; resultado := x;
              fuente := nombre |});
    [|split; [exact Hmem|split;
        [intros r (n & sis & rs & x & _ & _ & _ & ->)%Hmem; by destruct x
        |intros; by repeat split]]].
  intros r.
  rewrite list_elem_of_In, in_concat. split.
  - intros (l & Hl & Hr). apply list_elem_of_In in Hl, Hr.
    apply list_elem_of_fmap in Hl as ([nombre sistema] & -> & Hin).
    simpl in Hr. destruct (buscarPor sistema criterio) as [e|rs] eqn:E.
    + by apply elem_of_nil in Hr.
    + apply list_elem_of_fmap in Hr as (x & -> & Hx). by exists nombre, sistema, rs, x.
  - intros (nombre & sistema & rs & x & Hin & E & Hx & ->).
    exists (aporte criterio (nombre, sistema)). split; apply list_elem_of_In.
    + apply list_elem_of_fmap. by exists (nombre, sistema).
    + simpl. rewrite E. apply list_elem_of_fmap. by exists x.
Qed.

(** Three systems, the second of which throws: the first and the third
    still contribute. *)
Example buscarEnTodos_tresSistemas :
  buscarEnTodos "Tolkien" tresSistemas
  = ([ {| tipo := "Libro"; resultado := ItemLibro elHobbit;
          fuente := "Catálogo Biblioteca" |};
       {| tipo := "Artículo Académico";
          resultado := ItemArticuloAcademico ensayoTolkien;
          fuente := "Base de Conocimiento" |} ],
     [ ConsoleWarn "Error buscando en " "Biblioteca Digital"
         (Error "sin conexion") ]).
Proof. reflexivity. Qed.
End BusquedaFacts.

(** * Arrays updated in place *)

Section ListaFacts.
Context {A : Type}.

Lemma alter_lookup_insert (f : A → A) (l : list A) (i : nat) (x : A) :
  l !! i = Some x → alter f i l = <[i := f x]> l.
Proof.
  revert i. induction l as [|y l IH]; intros [|i] H; simplify_eq/=; try done.
  f_equal. by apply IH.
Qed.
End ListaFacts.

(** * Biblioteca: single calls *)

Section BibliotecaFacts.
Import Fecha.
Local Open Scope Z_scope.

Lemma tieneLibrosVencidos_estricta ahora socio l :
  Politica.puedeRetirar PoliticaEstricta ahora socio l
  = negb (tieneLibrosVencidos ahora socio).
Proof. reflexivity. Qed.

(** C3. When [renovarPrestamo] returns, the library object is exactly what
    it was: the members with their loan collections (hence every loan's due
    date) and the active-loan collection are unchanged; the only effect is
    one line on the console. *)
Theorem C3_renovarPrestamo_solo_informa (ahora socioId : Z)
    (libroISBN : string) (w w' : Mundo) :
  renovarPrestamo ahora socioId libroISBN w = (w', inr tt) →
  biblioteca w' = biblioteca w ∧
  socios (biblioteca w') = socios (biblioteca w) ∧
  prestamosActivos (biblioteca w') = prestamosActivos (biblioteca w) ∧
  siguienteRef w' = siguienteRef w ∧
  ∃ nuevoVencimiento,
    consola w' = consola w ++ [ConsoleLog "Préstamo renovado hasta: " nuevoVencimiento].
Proof.
  unfold renovarPrestamo. desplegar.
  destruct (buscarSocio socioId (biblioteca w)) as [[indice socio]|];
    [|discriminate].
  destruct (buscarLibro libroISBN (biblioteca w)) as [l|]; [|discriminate].
  destruct (tienePrestadoLibro l socio) as [p|]; [|discriminate].
  destruct (negb _); [discriminate|].
  intros [= <-]. simpl. eauto 10.
Qed.

(** One day into the loan of [mundoPrestado] the renewal is granted. *)
Lemma C3_witness :
  ∃ w', renovarPrestamo (instante0 + msPerDay) 1 "isbn-1" mundoPrestado
          = (w', inr tt) ∧
        biblioteca w' = biblioteca mundoPrestado.
Proof.
  eexists. split; [vm_compute; reflexivity|].
  eapply (C3_renovarPrestamo_solo_informa (instante0 + msPerDay) 1 "isbn-1"
            mundoPrestado).
  vm_compute. reflexivity.
Defined.

(** C1, evaluated on the code: a Visitante (maximum 0, [puedeRetirar]
    always false) obtains a Regular loan under the default policy, and then
    holds 1 loan against a maximum of 0. *)
Theorem C1_visitante_obtiene_prestamo :
  ∃ w' s p,
    crearPrestamo instante0 1 "isbn-1" TipoPrestamo.REGULAR mundoVisitante
      = (w', inr tt) ∧
    socios (biblioteca w') = [s] ∧ clase_socio s = Visitante ∧
    getMaximoLibros s = Finito 0 ∧ librosEnPrestamo s = 1%nat ∧
    prestamos s = [p] ∧ prestamosActivos (biblioteca w') = [p] ∧
    Socio_puedeRetirar s (libro p) = false.
Proof.
  eexists _, _, _. split; [vm_compute; reflexivity|].
  repeat split.
Qed.

(** C2, evaluated on the code.  [crearPrestamo] with REFERENCIA never
    returns and never changes the library object, but the exception it
    throws is never NotWithdrawable: when the member and the book resolve,
    the book is free and the policy permits, the guard
    [prestamo instanceof import("./Prestamo").PrestamoReferencia] raises a
    TypeError before the NotWithdrawable throw is reached (so it is for
    member 1 and the free book "isbn-2" of [mundoPrestado]); otherwise the
    exception is NotFound, Unavailable or PolicyDenied. *)
Theorem C2_referencia_lanza_TypeError :
  snd (crearPrestamo instante0 1 "isbn-2" TipoPrestamo.REFERENCIA mundoPrestado)
    = inl (TypeError "Right-hand side of 'instanceof' is not an object") ∧
  ∀ (ahora socioId : Z) (libroISBN : string) (w : Mundo),
    ∃ w' e,
      crearPrestamo ahora socioId libroISBN TipoPrestamo.REFERENCIA w
        = (w', inl e) ∧
      biblioteca w' = biblioteca w ∧ consola w' = consola w ∧
      e ≠ NotWithdrawable ∧
      match buscarSocio socioId (biblioteca w),
            buscarLibro libroISBN (biblioteca w) with
      | Some (_, socio), Some l =>
          if estaLibroPrestado l (biblioteca w) then e = Unavailable
          else if Politica.puedeRetirar (politicaActual (biblioteca w)) ahora
                    socio l
               then e = TypeError "Right-hand side of 'instanceof' is not an object"
               else e = PolicyDenied
      | _, _ => e = NotFound
      end.
Proof.
  split; [vm_compute; reflexivity|].
  intros ahora socioId libroISBN w. unfold crearPrestamo. desplegar.
  destruct (buscarSocio socioId (biblioteca w)) as [[indice socio]|].
  2: { eexists _, _. repeat split. discriminate. }
  destruct (buscarLibro libroISBN (biblioteca w)) as [l|].
  2: { eexists _, _. repeat split. discriminate. }
  destruct (estaLibroPrestado l (biblioteca w)).
  { eexists _, _. repeat split. discriminate. }
  destruct (Politica.puedeRetirar _ _ _ _); simpl.
  - eexists _, _. repeat split. discriminate.
  - eexists _, _. repeat split. discriminate.
Qed.

(** C4 as stated fails: in [mundoEstricto] the request is refused, in
    [mundoFlexible] it succeeds, but the loan created is due 14 days after
    its creation, not 7. *)
Lemma C4_counterexample :
  ¬ (snd (crearPrestamo quinceDiasDespues 1 "isbn-2" TipoPrestamo.REGULAR
            mundoEstricto) = inl PolicyDenied ∧
     ∃ w' p,
       crearPrestamo quinceDiasDespues 1 "isbn-2" TipoPrestamo.REGULAR
         mundoFlexible = (w', inr tt) ∧
       last (prestamosActivos (biblioteca w')) = Some p ∧
       fechaVencimiento p - fechaPrestamo p = 7 * msPerDay).
Proof.
  intros (_ & w' & p & Hw & Hp & Hd).
  vm_compute in Hw. injection Hw as <-.
  vm_compute in Hp. injection Hp as <-.
  vm_compute in Hd. discriminate.
Qed.

(** C4, amended. For a member with an overdue loan and a book that resolves
    and is not on loan: under PoliticaEstricta [crearPrestamo] throws
    PolicyDenied and changes nothing; after [cambiarPolitica(FLEXIBLE)] the
    same request returns, and the Regular loan it appends to both
    collections is due exactly 14 days after its creation.  The policy's
    [calcularDuracion] does give 7 for the base 14, but [crearPrestamo] does
    not apply it. *)
Theorem C4_estricta_niega_flexible_14_dias (ahora idSocio : Z)
    (libroISBN : string) (tipo : TipoPrestamo.t) (w : Mundo)
    (indice : nat) (socio : Socio) (l : Libro) :
  buscarSocio idSocio (biblioteca w) = Some (indice, socio) →
  buscarLibro libroISBN (biblioteca w) = Some l →
  estaLibroPrestado l (biblioteca w) = false →
  tieneLibrosVencidos ahora socio = true →
  politicaActual (biblioteca w) = PoliticaEstricta →
  crearPrestamo ahora idSocio libroISBN tipo w = (w, inl PolicyDenied) ∧
  ∃ w' p,
    crearPrestamo ahora idSocio libroISBN TipoPrestamo.REGULAR
      (tras (CambiarPolitica TipoPolitica.FLEXIBLE) w) = (w', inr tt) ∧
    prestamosActivos (biblioteca w') = prestamosActivos (biblioteca w) ++ [p] ∧
    socios (biblioteca w')
      = <[indice := agregarPrestamo p socio]> (socios (biblioteca w)) ∧
    clase p = PrestamoRegular ∧ libro p = l ∧ socioId p = idSocio ∧
    fechaPrestamo p = ahora ∧
    fechaVencimiento p = fechaPrestamo p + 14 * msPerDay ∧
    Politica.calcularDuracion PoliticaFlexible ahora socio 14 = 7.
Proof.
  intros Hs Hl Hdisp Hvenc Hpol. split.
  - unfold crearPrestamo. desplegar. rewrite Hs, Hl, Hdisp, Hpol.
    rewrite tieneLibrosVencidos_estricta, Hvenc. reflexivity.
  - unfold crearPrestamo, tras. simpl. unfold cambiarPolitica. desplegar.
    simpl. unfold buscarSocio, buscarLibro, estaLibroPrestado in *. simpl.
    rewrite Hs, Hl, Hdisp. simpl.
    eexists _, _. split; [reflexivity|]. simpl.
    split; [reflexivity|]. split.
    { apply list_find_Some in Hs as (Hi & _).
      by apply alter_lookup_insert. }
    repeat split.
    + unfold nuevoPrestamo, calcularVencimiento. simpl.
      rewrite setDate_getDate. reflexivity.
    + rewrite Hvenc. reflexivity.
Qed.
(** The scenario of the claim: [mundoEstricto] and [mundoFlexible]. *)
Lemma C4_witness :
  crearPrestamo quinceDiasDespues 1 "isbn-2" TipoPrestamo.REGULAR mundoEstricto
    = (mundoEstricto, inl PolicyDenied) ∧
  ∃ w' p,
    crearPrestamo quinceDiasDespues 1 "isbn-2" TipoPrestamo.REGULAR
      mundoFlexible = (w', inr tt) ∧
    last (prestamosActivos (biblioteca w')) = Some p ∧
    fechaVencimiento p = fechaPrestamo p + 14 * msPerDay.
Proof.
  destruct (C4_estricta_niega_flexible_14_dias quinceDiasDespues 1 "isbn-2"
              TipoPrestamo.REGULAR mundoEstricto 0
              {| clase_socio := SocioRegular; id := 1; nombre := "Ana";
                 apellido := "Paz";
                 prestamos := [nuevoPrestamo 2 instante0 PrestamoRegular
                                 elHobbit 1] |}
              {| libro_ref := 1; titulo := "Rayuela"; autor := "Cortazar";
                 isbn := "isbn-2" |})
    as (Hestricta & w' & p & Hflexible & Hactivos & _ & _ & _ & _ & _ & Hvence & _);
    try (vm_compute; reflexivity).
  split; [exact Hestricta|].
  exists w', p. split; [exact Hflexible|]. split; [|exact Hvence].
  rewrite Hactivos. apply last_snoc.
Defined.
End BibliotecaFacts.


(** * Removing a loan object from an array *)

Section QuitarFacts.

Lemma mismoPrestamo_true p q :
  mismoPrestamo p q = true ↔ prestamo_ref p = prestamo_ref q.
Proof. unfold mismoPrestamo. apply bool_decide_eq_true. Qed.

Lemma mismoLibro_refl l : mismoLibro l l = true.
Proof. unfold mismoLibro. by apply bool_decide_eq_true. Qed.

Lemma quitar_nil p : quitar p [] = [].
Proof. reflexivity. Qed.

Lemma quitar_cons p q l :
  quitar p (q :: l) = if mismoPrestamo q p then l else q :: quitar p l.
Proof.
  unfold quitar, indexOf. cbn [list_find]. case_decide as Hq.
  - rewrite Hq. reflexivity.
  - destruct (mismoPrestamo q p); [done|].
    destruct (list_find _ l) as [[k x]|]; reflexivity.
Qed.

Lemma elem_of_quitar_inv p x l : x ∈ quitar p l → x ∈ l.
Proof.
  induction l as [|q l IH]; [done|]. rewrite quitar_cons.
  destruct (mismoPrestamo q p); rewrite !elem_of_cons; [by right|].
  intros [->|Hx]; [by left|right; auto].
Qed.

Lemma quitar_NoDup p l :
  NoDup (prestamo_ref <$> l) → NoDup (prestamo_ref <$> quitar p l).
Proof.
  induction l as [|q l IH]; [done|]. rewrite quitar_cons, fmap_cons, NoDup_cons.
  intros [Hq Hl]. destruct (mismoPrestamo q p); [done|].
  rewrite fmap_cons, NoDup_cons. split; [|auto].
  intros (x & Hx & Hin)%list_elem_of_fmap. apply Hq, list_elem_of_fmap.
  exists x. eauto using elem_of_quitar_inv.
Qed.

Lemma elem_of_quitar p x l :
  NoDup (prestamo_ref <$> l) →
  x ∈ quitar p l ↔ x ∈ l ∧ prestamo_ref x ≠ prestamo_ref p.
Proof.
  induction l as [|q l IH]; [intros _; rewrite quitar_nil, elem_of_nil; tauto|].
  rewrite quitar_cons, fmap_cons, NoDup_cons. intros [Hq Hl].
  destruct (mismoPrestamo q p) eqn:E.
  - apply mismoPrestamo_true in E. rewrite elem_of_cons. split.
    + intros Hx. split; [auto|]. intros Hr. apply Hq, list_elem_of_fmap.
      exists x. split; [congruence|done].
    + intros [[->|Hx] Hr]; [congruence|done].
  - assert (prestamo_ref q ≠ prestamo_ref p) as Hne.
    { intros Hr%mismoPrestamo_true. congruence. }
    rewrite !elem_of_cons, IH by done.
    split; [intros [->|[? ?]]; auto|intros [[->|?] ?]; auto].
Qed.

Lemma quitar_ausente p l :
  (∀ q, q ∈ l → prestamo_ref q ≠ prestamo_ref p) → quitar p l = l.
Proof.
  induction l as [|q l IH]; [done|]. intros H. rewrite quitar_cons.
  destruct (mismoPrestamo q p) eqn:E.
  - apply mismoPrestamo_true in E. destruct (H q); [left|done].
  - rewrite IH; [done|]. intros x Hx. apply H. by right.
Qed.

Lemma quitar_ultimo p l :
  (∀ q, q ∈ l → prestamo_ref q ≠ prestamo_ref p) → quitar p (l ++ [p]) = l.
Proof.
  induction l as [|q l IH]; intros H; simpl.
  - rewrite quitar_cons. by rewrite (proj2 (mismoPrestamo_true p p)).
  - rewrite quitar_cons. destruct (mismoPrestamo q p) eqn:E.
    + apply mismoPrestamo_true in E. destruct (H q); [left|done].
    + rewrite IH; [done|]. intros x Hx. apply H. by right.
Qed.

Lemma ref_inyectiva (l : list Prestamo) p q :
  NoDup (prestamo_ref <$> l) → p ∈ l → q ∈ l →
  prestamo_ref p = prestamo_ref q → p = q.
Proof.
  induction l as [|x l IH]; [by intros _ ?%elem_of_nil|].
  rewrite fmap_cons, NoDup_cons, !elem_of_cons. intros [Hx Hl] [->|Hp] [->|Hq] Hr.
  - done.
  - destruct Hx. apply list_elem_of_fmap. eauto.
  - destruct Hx. apply list_elem_of_fmap. eauto.
  - auto.
Qed.

Lemma removerPrestamo_agregarPrestamo p s :
  (∀ q, q ∈ prestamos s → prestamo_ref q ≠ prestamo_ref p) →
  removerPrestamo p (agregarPrestamo p s) = s.
Proof.
  intros H. unfold removerPrestamo, agregarPrestamo, conPrestamos. simpl.
  rewrite quitar_ultimo by done. by destruct s.
Qed.
End QuitarFacts.

(** * Effects of the calls on the world *)

Section Efectos.
Local Open Scope Z_scope.

(** [crearPrestamo] either throws and leaves the library object alone, or
    returns after appending one freshly allocated loan to both collections. *)
Lemma crearPrestamo_efecto ahora idSocio libroISBN tipo w :
  (∃ e w', crearPrestamo ahora idSocio libroISBN tipo w = (w', inl e) ∧
     biblioteca w' = biblioteca w ∧ consola w' = consola w ∧
     (siguienteRef w ≤ siguienteRef w')%nat ∧
     (e = Unavailable →
        ∃ l, buscarLibro libroISBN (biblioteca w) = Some l ∧
             estaLibroPrestado l (biblioteca w) = true)) ∨
  (∃ indice socio l c,
     buscarSocio idSocio (biblioteca w) = Some (indice, socio) ∧
     buscarLibro libroISBN (biblioteca w) = Some l ∧
     estaLibroPrestado l (biblioteca w) = false ∧
     Politica.puedeRetirar (politicaActual (biblioteca w)) ahora socio l = true ∧
     (tipo = TipoPrestamo.REGULAR → c = PrestamoRegular) ∧
     let p := nuevoPrestamo (siguienteRef w) ahora c l idSocio in
     crearPrestamo ahora idSocio libroISBN tipo w =
       ({| biblioteca :=
             {| inventario := inventario (biblioteca w);
                socios := <[indice := agregarPrestamo p socio]>
                            (socios (biblioteca w));
                prestamosActivos := prestamosActivos (biblioteca w) ++ [p];
                politicaActual := politicaActual (biblioteca w) |};
           consola := consola w;
           siguienteRef := S (siguienteRef w) |}, inr tt)).
Proof.
  unfold crearPrestamo. desplegar.
  destruct (buscarSocio idSocio (biblioteca w)) as [[indice socio]|] eqn:Hs.
  2: { left. eexists _, _. repeat split; [lia|discriminate]. }
  destruct (buscarLibro libroISBN (biblioteca w)) as [l|] eqn:Hl.
  2: { left. eexists _, _. repeat split; [lia|discriminate]. }
  destruct (estaLibroPrestado l (biblioteca w)) eqn:Hd.
  { left. eexists _, _. repeat split; [lia|eauto]. }
  destruct (Politica.puedeRetirar _ _ _ _) eqn:Hp; simpl.
  2: { left. eexists _, _. repeat split; [lia|discriminate]. }
  assert (alter_ok : ∀ p, alter (agregarPrestamo p) indice (socios (biblioteca w))
            = <[indice := agregarPrestamo p socio]> (socios (biblioteca w))).
  { intros p. apply alter_lookup_insert.
    unfold buscarSocio in Hs. by apply list_find_Some in Hs as (? & _). }
  destruct tipo; simpl.
  - right. eexists _, _, _, PrestamoRegular. repeat split; try done.
    simpl. unfold asignar, conSocios, conPrestamosActivos. simpl. by rewrite alter_ok.
  - right. eexists _, _, _, PrestamoCorto. repeat split; try done.
    simpl. unfold asignar, conSocios, conPrestamosActivos. simpl. by rewrite alter_ok.
  - left. eexists _, _. repeat split; [simpl; lia|discriminate].
  - right. eexists _, _, _, PrestamoDigital. repeat split; try done.
    simpl. unfold asignar, conSocios, conPrestamosActivos. simpl. by rewrite alter_ok.
Qed.

(** [devolverLibro] either throws and leaves the world alone, or returns
    after removing the member's first loan of the book from the member's
    collection and from [prestamosActivos]. *)
Lemma devolverLibro_efecto ahora idSocio libroISBN w :
  (∃ e, devolverLibro ahora idSocio libroISBN w = (w, inl e) ∧
     (buscarSocio idSocio (biblioteca w) = None ∨
      buscarLibro libroISBN (biblioteca w) = None ∨
      ∃ indice socio l,
        buscarSocio idSocio (biblioteca w) = Some (indice, socio) ∧
        buscarLibro libroISBN (biblioteca w) = Some l ∧
        tienePrestadoLibro l socio = None)) ∨
  (∃ indice socio l p w',
     buscarSocio idSocio (biblioteca w) = Some (indice, socio) ∧
     buscarLibro libroISBN (biblioteca w) = Some l ∧
     tienePrestadoLibro l socio = Some p ∧
     devolverLibro ahora idSocio libroISBN w = (w', inr tt) ∧
     biblioteca w' =
       {| inventario := inventario (biblioteca w);
          socios := <[indice := removerPrestamo p socio]> (socios (biblioteca w));
          prestamosActivos := quitar p (prestamosActivos (biblioteca w));
          politicaActual := politicaActual (biblioteca w) |} ∧
     siguienteRef w' = siguienteRef w).
Proof.
  unfold devolverLibro. desplegar.
  destruct (buscarSocio idSocio (biblioteca w)) as [[indice socio]|] eqn:Hs;
    [|left; eauto].
  destruct (buscarLibro libroISBN (biblioteca w)) as [l|] eqn:Hl; [|left; eauto].
  destruct (tienePrestadoLibro l socio) as [p|] eqn:Hp; [|left; eauto 10].
  right. exists indice, socio, l, p.
  assert (alter (removerPrestamo p) indice (socios (biblioteca w))
          = <[indice := removerPrestamo p socio]> (socios (biblioteca w))) as Ha.
  { apply alter_lookup_insert.
    unfold buscarSocio in Hs. by apply list_find_Some in Hs as (? & _). }
  unfold quitar.
  destruct (calcularMulta ahora p >? 0); simpl;
    destruct (indexOf p (prestamosActivos (biblioteca w))); simpl.
  all: eexists; repeat split; try done.
  all: unfold conSocios, conPrestamosActivos; simpl; by rewrite Ha.
Qed.

(** [renovarPrestamo] writes at most to the console. *)
Lemma renovarPrestamo_efecto ahora idSocio libroISBN w :
  biblioteca (fst (renovarPrestamo ahora idSocio libroISBN w)) = biblioteca w ∧
  siguienteRef (fst (renovarPrestamo ahora idSocio libroISBN w)) = siguienteRef w.
Proof.
  unfold renovarPrestamo. desplegar.
  destruct (buscarSocio idSocio (biblioteca w)) as [[indice socio]|]; [|done].
  destruct (buscarLibro libroISBN (biblioteca w)) as [l|]; [|done].
  destruct (tienePrestadoLibro l socio) as [p|]; [|done].
  destruct (negb _); done.
Qed.
End Efectos.

(** * The synchronisation invariant is kept by every call *)

Section InvarianteFacts.

Lemma sincronizado_inicial : sincronizado mundoInicial.
Proof.
  split; simpl.
  - constructor.
  - by intros p ?%elem_of_nil.
  - intros i s. by rewrite lookup_nil.
  - intros i s p. by rewrite lookup_nil.
  - by intros p ?%elem_of_nil.
  - intros i j s s' p. by rewrite lookup_nil.
Qed.

(** The invariant only looks at the two collections and the allocator. *)
Lemma sincronizado_mismas_colecciones w w' :
  sincronizado w →
  socios (biblioteca w') = socios (biblioteca w) →
  prestamosActivos (biblioteca w') = prestamosActivos (biblioteca w) →
  siguienteRef w ≤ siguienteRef w' →
  sincronizado w'.
Proof.
  intros [H1 H2 H3 H4 H5 H6] Hs Ha Hr.
  split; rewrite ?Hs, ?Ha; eauto.
  intros p Hp. specialize (H2 p Hp). lia.
Qed.

(** A new member has no loans. *)
Lemma sincronizado_registrar w s c n :
  sincronizado w → prestamos s = [] →
  sincronizado
    {| biblioteca := conSocios (biblioteca w) (socios (biblioteca w) ++ [s]);
       consola := c; siguienteRef := n + siguienteRef w |}.
Proof.
  intros [H1 H2 H3 H4 H5 H6] Hs.
  assert (Hnuevo : ∀ i s', (socios (biblioteca w) ++ [s]) !! i = Some s' →
            socios (biblioteca w) !! i = Some s' ∨ s' = s).
  { intros i s' [?|[_ H]]%lookup_app_Some; [by left|right].
    apply list_lookup_singleton_Some in H as [_ ->]. done. }
  split; simpl.
  - done.
  - intros p Hp. specialize (H2 p Hp). lia.
  - intros i s' [?| ->]%Hnuevo; [eauto|]. rewrite Hs. constructor.
  - intros i s' p [?| ->]%Hnuevo; [eauto|]. rewrite Hs. by intros ?%elem_of_nil.
  - intros p (i & s' & Hi & Hp)%H5. exists i, s'. split; [|done].
    by apply lookup_app_l_Some.
  - intros i j s1 s2 p [?| ->]%Hnuevo [?| ->]%Hnuevo; rewrite ?Hs;
      try (by intros ?%elem_of_nil); try (by intros _ ?%elem_of_nil).
    eauto.
Qed.

(** Appending a freshly allocated loan to both collections. *)
Lemma sincronizado_agregar w indice socio p c :
  sincronizado w →
  socios (biblioteca w) !! indice = Some socio →
  prestamo_ref p = siguienteRef w →
  sincronizado
    {| biblioteca :=
         {| inventario := inventario (biblioteca w);
            socios := <[indice := agregarPrestamo p socio]> (socios (biblioteca w));
            prestamosActivos := prestamosActivos (biblioteca w) ++ [p];
            politicaActual := politicaActual (biblioteca w) |};
       consola := c;
       siguienteRef := S (siguienteRef w) |}.
Proof.
  intros [H1 H2 H3 H4 H5 H6] Hi Hp.
  assert (Hlt : indice < length (socios (biblioteca w))) by eauto using lookup_lt_Some.
  assert (Hviejo : ∀ j s q, socios (biblioteca w) !! j = Some s →
            q ∈ prestamos s → prestamo_ref q ≠ prestamo_ref p).
  { intros j s q Hj Hq. specialize (H2 q (H4 j s q Hj Hq)). lia. }
  assert (Hmira : ∀ j s, <[indice := agregarPrestamo p socio]> (socios (biblioteca w)) !! j = Some s →
            (j = indice ∧ s = agregarPrestamo p socio) ∨
            (j ≠ indice ∧ socios (biblioteca w) !! j = Some s)).
  { intros j s [(-> & -> & _)|[? ?]]%list_lookup_insert_Some; auto. }
  split; simpl.
  - rewrite fmap_app. apply NoDup_app. split; [done|]. split; [|apply NoDup_singleton].
    intros r (q & -> & Hq)%list_elem_of_fmap Hr. simpl in Hr.
    apply list_elem_of_singleton in Hr. specialize (H2 q Hq). lia.
  - intros q [Hq| ->%list_elem_of_singleton]%elem_of_app; [|lia].
    specialize (H2 q Hq). lia.
  - intros j s [[-> ->]|[Hne Hj]]%Hmira; [|eauto]. simpl.
    rewrite fmap_app. apply NoDup_app. split; [eauto|].
    split; [|apply NoDup_singleton].
    intros r (q & -> & Hq)%list_elem_of_fmap Hr. simpl in Hr.
    apply list_elem_of_singleton in Hr. by eapply Hviejo.
  - intros j s q [[-> ->]|[Hne Hj]]%Hmira Hq; apply elem_of_app.
    + simpl in Hq. apply elem_of_app in Hq as [Hq|Hq]; eauto.
    + eauto.
  - intros q [Hq| ->%list_elem_of_singleton]%elem_of_app.
    + destruct (H5 q Hq) as (j & s & Hj & Hqs).
      destruct (decide (j = indice)) as [->|Hne].
      * exists indice, (agregarPrestamo p socio). split.
        { by apply list_lookup_insert_eq. }
        simpl. apply elem_of_app. left. congruence.
      * exists j, s. split; [|done]. by rewrite list_lookup_insert_ne.
    + exists indice, (agregarPrestamo p socio). split.
      { by apply list_lookup_insert_eq. }
      simpl. apply elem_of_app. right. by apply list_elem_of_singleton.
  - intros j k s1 s2 q [[-> ->]|[Hne1 Hj]]%Hmira [[-> ->]|[Hne2 Hk]]%Hmira; [done|..].
    + simpl. intros [Hq| ->%list_elem_of_singleton]%elem_of_app Hq2.
      * symmetry. eauto.
      * by destruct (Hviejo k s2 p Hk Hq2).
    + simpl. intros Hq1 [Hq| ->%list_elem_of_singleton]%elem_of_app.
      * eauto.
      * by destruct (Hviejo j s1 p Hj Hq1).
    + eauto.
Qed.

(** Removing a member's loan from both collections. *)
Lemma sincronizado_quitar w indice socio p c :
  sincronizado w →
  socios (biblioteca w) !! indice = Some socio →
  p ∈ prestamos socio →
  sincronizado
    {| biblioteca :=
         {| inventario := inventario (biblioteca w);
            socios := <[indice := removerPrestamo p socio]> (socios (biblioteca w));
            prestamosActivos := quitar p (prestamosActivos (biblioteca w));
            politicaActual := politicaActual (biblioteca w) |};
       consola := c;
       siguienteRef := siguienteRef w |}.
Proof.
  intros [H1 H2 H3 H4 H5 H6] Hi Hp.
  assert (Hlt : indice < length (socios (biblioteca w))) by eauto using lookup_lt_Some.
  assert (Hmira : ∀ j s, <[indice := removerPrestamo p socio]> (socios (biblioteca w)) !! j = Some s →
            (j = indice ∧ s = removerPrestamo p socio) ∨
            (j ≠ indice ∧ socios (biblioteca w) !! j = Some s)).
  { intros j s [(-> & -> & _)|[? ?]]%list_lookup_insert_Some; auto. }
  assert (Hpa : p ∈ prestamosActivos (biblioteca w)) by eauto.
  split; simpl.
  - by apply quitar_NoDup.
  - intros q Hq%elem_of_quitar_inv. auto.
  - intros j s [[-> ->]|[Hne Hj]]%Hmira; [|eauto]. simpl. apply quitar_NoDup. eauto.
  - intros j s q [[-> ->]|[Hne Hj]]%Hmira Hq; apply elem_of_quitar; try done.
    + simpl in Hq. apply elem_of_quitar in Hq as [Hq Hr]; eauto.
    + split; [eauto|]. intros Hr.
      assert (q = p) as -> by eauto using ref_inyectiva.
      apply Hne. eauto.
  - intros q [Hq Hr]%elem_of_quitar; [|done].
    destruct (H5 q Hq) as (j & s & Hj & Hqs).
    destruct (decide (j = indice)) as [->|Hne].
    + exists indice, (removerPrestamo p socio). split.
      { by apply list_lookup_insert_eq. }
      simpl. apply elem_of_quitar; [eauto|]. split; [congruence|done].
    + exists j, s. split; [|done]. by rewrite list_lookup_insert_ne.
  - intros j k s1 s2 q [[-> ->]|[Hne1 Hj]]%Hmira [[-> ->]|[Hne2 Hk]]%Hmira; [done|..].
    + simpl. intros Hq1%elem_of_quitar_inv Hq2. symmetry. eauto.
    + simpl. intros Hq1 Hq2%elem_of_quitar_inv. eauto.
    + eauto.
Qed.

Lemma sincronizado_tras w c : sincronizado w → sincronizado (tras c w).
Proof.
  intros Hw. unfold tras. destruct c as [t a i|t i n a|t|ahora s l t|ahora s l|ahora s l]; simpl.
  - (* agregarLibro *)
    eapply sincronizado_mismas_colecciones; [exact Hw|done|done|simpl; lia].
  - (* registrarSocio *)
    by apply (sincronizado_registrar w _ _ 0).
  - (* cambiarPolitica *)
    eapply sincronizado_mismas_colecciones; [exact Hw|done|done|done].
  - (* crearPrestamo *)
    destruct (crearPrestamo_efecto ahora s l t w)
      as [(e & w' & -> & Hb & _ & Hr & _)|(i & socio & lib & c & Hs & _ & _ & _ & _ & ->)]; simpl.
    + eapply sincronizado_mismas_colecciones; [exact Hw|by rewrite Hb..|done].
    + apply sincronizado_agregar; [done| |done].
      unfold buscarSocio in Hs. by apply list_find_Some in Hs as (? & _).
  - (* devolverLibro *)
    destruct (devolverLibro_efecto ahora s l w)
      as [(e & -> & _)|(i & socio & lib & p & w' & Hs & _ & Hp & -> & Hb & Hr)]; simpl; [done|].
    unfold buscarSocio in Hs. apply list_find_Some in Hs as (Hi & _).
    unfold tienePrestadoLibro in Hp.
    apply fmap_Some in Hp as ([k x] & (Hk & _)%list_find_Some & ->). simpl in *.
    pose proof (sincronizado_quitar w i socio x (consola w') Hw Hi
                  ltac:(eauto using list_elem_of_lookup_2)) as Hq.
    destruct Hq as [H1 H2 H3 H4 H5 H6]. simpl in *.
    split; rewrite ?Hb, ?Hr; simpl; done.
  - (* renovarPrestamo *)
    destruct (renovarPrestamo_efecto ahora s l w) as [Hb Hr].
    eapply sincronizado_mismas_colecciones; [exact Hw|by rewrite Hb..|by rewrite Hr].
Qed.

Lemma alcanzable_sincronizado w : alcanzable w → sincronizado w.
Proof.
  induction 1; [apply sincronizado_inicial|by apply sincronizado_tras].
Qed.
End InvarianteFacts.

(** * Biblioteca: runs of calls *)

Section Recorridos.
Local Open Scope Z_scope.

Lemma alcanzable_correr cs w : alcanzable w → alcanzable (correr cs w).
Proof.
  revert w. induction cs as [|c cs IH]; intros w Hw; [done|].
  apply IH. by constructor.
Qed.

Lemma buscarSocio_tras_mutar idSocio b indice socio socio' :
  buscarSocio idSocio b = Some (indice, socio) → id socio' = idSocio →
  list_find (λ s, id s = idSocio) (<[indice := socio']> (socios b))
  = Some (indice, socio').
Proof.
  unfold buscarSocio. intros (Hi & _ & Hmin)%list_find_Some Hid.
  apply list_find_insert_Some. right. left.
  split_and!; eauto using lookup_lt_Some.
Qed.

Lemma tienePrestadoLibro_ninguno l s :
  (∀ q, q ∈ prestamos s → mismoLibro (libro q) l = false) →
  list_find (λ p, mismoLibro (libro p) l = true) (prestamos s) = None.
Proof.
  intros H. apply list_find_None, Forall_forall. intros q Hq. by rewrite (H q Hq).
Qed.

Lemma estaLibroPrestado_false l b q :
  estaLibroPrestado l b = false → q ∈ prestamosActivos b →
  mismoLibro (libro q) l = false.
Proof.
  unfold estaLibroPrestado. intros H Hq.
  destruct (mismoLibro (libro q) l) eqn:E; [|done].
  rewrite <- H. symmetry. apply existsb_exists. exists q.
  split; [by apply list_elem_of_In|done].
Qed.

(** C6. In every state reachable from the freshly constructed library, a
    loan is in some member's collection exactly when it is in
    [prestamosActivos].  From such a state [crearPrestamo] and
    [devolverLibro] apply both mutations or neither: when they throw, both
    collections are as before; when [crearPrestamo] returns, one new loan
    has been appended to [prestamosActivos] and to the collection of one
    member; when [devolverLibro] returns, one loan has been removed from
    the collection of one member and from [prestamosActivos]. *)
Theorem C6_colecciones_sincronizadas (w : Mundo) :
  alcanzable w →
  (∀ p, p ∈ prestamosActivos (biblioteca w) ↔
        ∃ s, s ∈ socios (biblioteca w) ∧ p ∈ prestamos s) ∧
  (∀ ahora idSocio libroISBN tipo w' r,
     crearPrestamo ahora idSocio libroISBN tipo w = (w', r) →
     match r with
     | inl _ =>
         socios (biblioteca w') = socios (biblioteca w) ∧
         prestamosActivos (biblioteca w') = prestamosActivos (biblioteca w)
     | inr _ =>
         ∃ indice socio p,
           socios (biblioteca w) !! indice = Some socio ∧
           (p ∉ prestamosActivos (biblioteca w)) ∧
           prestamosActivos (biblioteca w')
             = prestamosActivos (biblioteca w) ++ [p] ∧
           socios (biblioteca w')
             = <[indice := conPrestamos socio (prestamos socio ++ [p])]>
                 (socios (biblioteca w))
     end) ∧
  (∀ ahora idSocio libroISBN w' r,
     devolverLibro ahora idSocio libroISBN w = (w', r) →
     match r with
     | inl _ =>
         socios (biblioteca w') = socios (biblioteca w) ∧
         prestamosActivos (biblioteca w') = prestamosActivos (biblioteca w)
     | inr _ =>
         ∃ indice socio socio' p,
           socios (biblioteca w) !! indice = Some socio ∧
           p ∈ prestamos socio ∧ p ∈ prestamosActivos (biblioteca w) ∧
           socios (biblioteca w') = <[indice := socio']> (socios (biblioteca w)) ∧
           (∀ q, q ∈ prestamos socio' ↔ q ∈ prestamos socio ∧ q ≠ p) ∧
           (∀ q, q ∈ prestamosActivos (biblioteca w') ↔
                 q ∈ prestamosActivos (biblioteca w) ∧ q ≠ p)
     end).
Proof.
  intros Hw%alcanzable_sincronizado.
  pose proof Hw as [H1 H2 H3 H4 H5 H6].
  split; [|split].
  - intros p. split.
    + intros (i & s & Hi & Hp)%H5. exists s. eauto using list_elem_of_lookup_2.
    + intros (s & (i & Hi)%list_elem_of_lookup & Hp). eauto.
  - intros ahora idSocio libroISBN tipo w' r Hr.
    destruct (crearPrestamo_efecto ahora idSocio libroISBN tipo w)
      as [(e & w0 & Heq & Hb & _)
         |(i & socio & l & c & Hs & _ & _ & _ & _ & Heq)];
      rewrite Heq in Hr; injection Hr as <- <-.
    + by rewrite Hb.
    + unfold buscarSocio in Hs. apply list_find_Some in Hs as (Hi & _).
      eexists i, socio, _. split; [done|]. split; [|done].
      intros Hin%H2. simpl in Hin. lia.
  - intros ahora idSocio libroISBN w' r Hr.
    destruct (devolverLibro_efecto ahora idSocio libroISBN w)
      as [(e & Heq & _)|(i & socio & l & p & w0 & Hs & _ & Hp & Heq & Hb & _)];
      rewrite Heq in Hr; injection Hr as <- <-; [done|].
    unfold buscarSocio in Hs. apply list_find_Some in Hs as (Hi & _).
    unfold tienePrestadoLibro in Hp.
    apply fmap_Some in Hp as ([k x] & (Hk%list_elem_of_lookup_2 & _)%list_find_Some & ->).
    simpl in *. rewrite Hb. simpl.
    exists i, socio, (removerPrestamo x socio), x.
    split_and!; eauto.
    + intros q. simpl. rewrite elem_of_quitar by eauto. split.
      * intros [Hq Hne]. split; [done|]. by intros ->.
      * intros [Hq Hne]. split; [done|]. intros Href. apply Hne.
        eapply ref_inyectiva; eauto.
    + intros q. rewrite elem_of_quitar by eauto. split.
      * intros [Hq Hne]. split; [done|]. by intros ->.
      * intros [Hq Hne]. split; [done|]. intros Href. apply Hne.
        eapply ref_inyectiva; eauto.
Qed.

(** In [mundoPrestado] the one active loan is held by a member. *)
Lemma C6_witness :
  ∃ s, s ∈ socios (biblioteca mundoPrestado) ∧
       nuevoPrestamo 2 instante0 PrestamoRegular elHobbit 1 ∈ prestamos s.
Proof.
  apply (proj1 (C6_colecciones_sincronizadas mundoPrestado
                  (alcanzable_correr _ _ alcanzable_inicial))).
  vm_compute. constructor.
Defined.

(** C5. From a reachable state, after [crearPrestamo(m, isbn, REGULAR)] has
    returned, [devolverLibro(m, isbn)] returns too; the loan that was
    created is then in neither the library's active-loan collection nor
    any member's collection (the library object is exactly what it was
    before the loan), and no later [crearPrestamo] for that ISBN throws
    Unavailable. *)
Theorem C5_prestar_y_devolver (w w1 : Mundo) (ahora ahora' idSocio : Z)
    (libroISBN : string) :
  alcanzable w →
  crearPrestamo ahora idSocio libroISBN TipoPrestamo.REGULAR w = (w1, inr tt) →
  ∃ p w2,
    prestamosActivos (biblioteca w1) = prestamosActivos (biblioteca w) ++ [p] ∧
    clase p = PrestamoRegular ∧ socioId p = idSocio ∧
    isbn (libro p) = libroISBN ∧
    devolverLibro ahora' idSocio libroISBN w1 = (w2, inr tt) ∧
    (p ∉ prestamosActivos (biblioteca w2)) ∧
    (∀ s, s ∈ socios (biblioteca w2) → p ∉ prestamos s) ∧
    biblioteca w2 = biblioteca w ∧
    (∀ ahora'' idSocio' tipo,
       snd (crearPrestamo ahora'' idSocio' libroISBN tipo w2)
         ≠ inl Unavailable).
Proof.
  intros Hw%alcanzable_sincronizado Hcrear.
  pose proof Hw as [H1 H2 H3 H4 H5 H6].
  destruct (crearPrestamo_efecto ahora idSocio libroISBN TipoPrestamo.REGULAR w)
    as [(e & w0 & Heq & _)
       |(i & socio & l & c & Hs & Hl & Hd & _ & Hc & Heq)];
    rewrite Heq in Hcrear; [discriminate|].
  rewrite (Hc eq_refl) in *. clear Hc Heq. injection Hcrear as <-.
  set (p := nuevoPrestamo (siguienteRef w) ahora PrestamoRegular l idSocio).
  pose proof Hs as (Hi & Hid & _)%list_find_Some.
  assert (Hfresco : ∀ q, q ∈ prestamosActivos (biblioteca w) →
            prestamo_ref q ≠ prestamo_ref p).
  { intros q Hq%H2. simpl. lia. }
  assert (Hfresco' : ∀ q, q ∈ prestamos socio → prestamo_ref q ≠ prestamo_ref p)
    by eauto.
  assert (Hisbn : isbn l = libroISBN).
  { unfold buscarLibro in Hl.
    by apply fmap_Some in Hl as ([k x] & (_ & ? & _)%list_find_Some & ->). }
  exists p. 
  destruct (devolverLibro_efecto ahora' idSocio libroISBN
              {| biblioteca :=
                   {| inventario := inventario (biblioteca w);
                      socios := <[i := agregarPrestamo p socio]> (socios (biblioteca w));
                      prestamosActivos := prestamosActivos (biblioteca w) ++ [p];
                      politicaActual := politicaActual (biblioteca w) |};
                 consola := consola w;
                 siguienteRef := S (siguienteRef w) |})
    as [(e & _ & Hfalla)|(i' & socio' & l' & p' & w2 & Hs' & Hl' & Hp' & Heq & Hb & _)].
  { (* devolverLibro cannot throw *)
    exfalso. unfold buscarSocio, buscarLibro in Hfalla. simpl in Hfalla.
    rewrite (buscarSocio_tras_mutar idSocio (biblioteca w) i socio
             (agregarPrestamo p socio) Hs Hid) in Hfalla.
    unfold buscarLibro in Hl. rewrite Hl in Hfalla.
    destruct Hfalla as [?|[?|(i' & socio' & l' & [= <- <-] & [= <-] & Hno)]];
      [done..|].
    unfold tienePrestadoLibro in Hno. simpl in Hno.
    rewrite list_find_app_r in Hno.
    2: { apply tienePrestadoLibro_ninguno.
         eauto using estaLibroPrestado_false. }
    simpl in Hno. rewrite decide_True in Hno by apply mismoLibro_refl.
    discriminate. }
  unfold buscarSocio, buscarLibro in Hs', Hl'. simpl in Hs', Hl'.
  rewrite (buscarSocio_tras_mutar idSocio (biblioteca w) i socio
             (agregarPrestamo p socio) Hs Hid) in Hs'.
  unfold buscarLibro in Hl. rewrite Hl in Hl'.
  injection Hs' as <- <-. injection Hl' as <-.
  assert (p' = p) as ->.
  { unfold tienePrestadoLibro in Hp'. simpl in Hp'.
    rewrite list_find_app_r in Hp'.
    2: { apply tienePrestadoLibro_ninguno.
         eauto using estaLibroPrestado_false. }
    simpl in Hp'. rewrite decide_True in Hp' by apply mismoLibro_refl.
    simpl in Hp'. congruence. }
  assert (Hvuelta : biblioteca w2 = biblioteca w).
  { rewrite Hb. simpl.
    rewrite removerPrestamo_agregarPrestamo by done.
    rewrite list_insert_insert_eq, list_insert_id by done.
    rewrite quitar_ultimo by done. by destruct (biblioteca w). }
  exists w2. split_and!; try done.
  - rewrite Hvuelta. intros Hin. by apply (Hfresco p).
  - rewrite Hvuelta. intros s (j & Hj)%list_elem_of_lookup Hin.
    apply (Hfresco p); eauto.
  - intros ahora'' idSocio' tipo.
    destruct (crearPrestamo_efecto ahora'' idSocio' libroISBN tipo w2)
      as [(e & w3 & -> & _ & _ & _ & Hu)|(? & ? & ? & ? & _ & _ & _ & _ & _ & ->)];
      simpl; [|discriminate].
    intros [= ->]. destruct (Hu eq_refl) as (l' & Hl' & Hd').
    rewrite Hvuelta in *. unfold buscarLibro in Hl'. congruence.
Qed.

(** In [mundoPrestado], lending "isbn-2" and taking it back. *)
Lemma C5_witness :
  ∃ w1 p w2,
    crearPrestamo quinceDiasDespues 1 "isbn-2" TipoPrestamo.REGULAR mundoPrestado
      = (w1, inr tt) ∧
    devolverLibro quinceDiasDespues 1 "isbn-2" w1 = (w2, inr tt) ∧
    (p ∉ prestamosActivos (biblioteca w2)) ∧
    biblioteca w2 = biblioteca mundoPrestado.
Proof.
  exists (fst (crearPrestamo quinceDiasDespues 1 "isbn-2" TipoPrestamo.REGULAR
                 mundoPrestado)).
  destruct (C5_prestar_y_devolver mundoPrestado
              (fst (crearPrestamo quinceDiasDespues 1 "isbn-2"
                      TipoPrestamo.REGULAR mundoPrestado))
              quinceDiasDespues quinceDiasDespues 1 "isbn-2")
    as (p & w2 & _ & _ & _ & _ & Hdev & Hno & _ & Hvuelta & _).
  - unfold mundoPrestado. apply alcanzable_correr, alcanzable_inicial.
  - vm_compute. reflexivity.
  - exists p, w2. split; [vm_compute; reflexivity|]. split; [exact Hdev|].
    split; [exact Hno|exact Hvuelta].
Defined.
End Recorridos.

(** * Prestamo: due dates and fines *)

Section PrestamoMas.
Import Fecha.
Local Open Scope Z_scope.

Lemma anios_100 y :
  ((y + 100) / 400 * diasPorEra + (y + 100) mod 400 * 365
     + (y + 100) mod 400 / 4 - (y + 100) mod 400 / 100)
  - (y / 400 * diasPorEra + y mod 400 * 365 + y mod 400 / 4 - y mod 400 / 100)
  = 36524 ∨
  ((y + 100) / 400 * diasPorEra + (y + 100) mod 400 * 365
     + (y + 100) mod 400 / 4 - (y + 100) mod 400 / 100)
  - (y / 400 * diasPorEra + y mod 400 * 365 + y mod 400 / 4 - y mod 400 / 100)
  = 36525.
Proof. unfold diasPorEra. Z.div_mod_to_equations. lia. Qed.

Lemma MakeDay_mas_100 y m d :
  0 <= m <= 11 →
  MakeDay (y + 100) m d - MakeDay y m d = 36524 ∨
  MakeDay (y + 100) m d - MakeDay y m d = 36525.
Proof.
  intros Hm. unfold MakeDay. cbv zeta.
  rewrite (Z.div_small m 12), (Z.mod_small m 12) by lia.
  rewrite !Z.add_0_r.
  destruct (m + 1 <=? 2).
  - pose proof (anios_100 (y - 1)) as H.
    replace (y + 100 - 1) with (y - 1 + 100) by lia. lia.
  - pose proof (anios_100 y) as H. lia.
Qed.

Lemma setFullYear_mas_100 t :
  setFullYear t (getFullYear t + 100) = t + 36524 * msPerDay ∨
  setFullYear t (getFullYear t + 100) = t + 36525 * msPerDay.
Proof.
  unfold setFullYear, getFullYear, MakeDate.
  pose proof (MakeDay_mas_100 (YearFromTime t) (MonthFromTime t)
                (DateFromTime t) (MonthFromTime_rango t)) as H.
  rewrite (MakeDay_de_civil t (DateFromTime t)) in H.
  unfold Day, TimeWithinDay in *.
  pose proof (Z.div_mod t msPerDay ltac:(unfold msPerDay; lia)).
  destruct H as [H|H]; [left|right]; lia.
Qed.

(** X1. Whatever the instant of creation, a Regular loan is due exactly 14
    days (of 24 hours) later, a Short loan exactly 7 days later, a Reference
    loan at the instant of its creation, and a Digital loan 36524 or 36525
    days later (100 calendar years, at the same time of day). *)
Theorem X1_vencimiento_por_clase (ref : nat) (ahora : Z) (l : Libro) (sid : Z) :
  fechaPrestamo (nuevoPrestamo ref ahora PrestamoRegular l sid) = ahora ∧
  fechaVencimiento (nuevoPrestamo ref ahora PrestamoRegular l sid)
    = ahora + 14 * msPerDay ∧
  fechaVencimiento (nuevoPrestamo ref ahora PrestamoCorto l sid)
    = ahora + 7 * msPerDay ∧
  fechaVencimiento (nuevoPrestamo ref ahora PrestamoReferencia l sid) = ahora ∧
  (fechaVencimiento (nuevoPrestamo ref ahora PrestamoDigital l sid)
     = ahora + 36524 * msPerDay ∨
   fechaVencimiento (nuevoPrestamo ref ahora PrestamoDigital l sid)
     = ahora + 36525 * msPerDay).
Proof.
  unfold nuevoPrestamo, calcularVencimiento. simpl.
  rewrite !setDate_getDate. split_and!; try reflexivity.
  apply setFullYear_mas_100.
Qed.



Lemma diasVencido_al_dia ahora p :
  ahora <= fechaVencimiento p → diasVencido ahora p = 0.
Proof.
  intros H. unfold diasVencido.
  by rewrite (proj2 (estaVencido_false ahora p) H).
Qed.

Lemma diasVencido_cotas ahora p :
  fechaVencimiento p < ahora →
  (diasVencido ahora p - 1) * msPerDay < ahora - fechaVencimiento p
    <= diasVencido ahora p * msPerDay.
Proof.
  intros H. unfold diasVencido.
  rewrite (proj2 (estaVencido_true ahora p) H). simpl. unfold getTime.
  apply Math_ceil_div_spec. unfold msPerDay. lia.
Qed.

Lemma diasVencido_positivo ahora p :
  fechaVencimiento p < ahora → 1 <= diasVencido ahora p.
Proof.
  intros H. pose proof (diasVencido_cotas ahora p H) as Hc.
  unfold msPerDay in Hc. lia.
Qed.

Lemma diasVencido_creciente ahora ahora' p :
  ahora <= ahora' → 0 <= diasVencido ahora p <= diasVencido ahora' p.
Proof.
  intros Ht.
  destruct (Z.le_gt_cases ahora (fechaVencimiento p)) as [H|H].
  - rewrite (diasVencido_al_dia ahora p H).
    destruct (Z.le_gt_cases ahora' (fechaVencimiento p)) as [H'|H'].
    + rewrite (diasVencido_al_dia ahora' p H'). lia.
    + pose proof (diasVencido_positivo ahora' p H'). lia.
  - pose proof (diasVencido_cotas ahora p H) as H1.
    pose proof (diasVencido_cotas ahora' p ltac:(lia)) as H2.
    unfold msPerDay in *. lia.
Qed.

(** X3. The fine of a loan never decreases as time passes, and is never
    negative. *)
Theorem X3_multa_creciente (p : Prestamo) (ahora ahora' : Z) :
  ahora <= ahora' →
  0 <= calcularMulta ahora p <= calcularMulta ahora' p.
Proof.
  intros Ht. pose proof (diasVencido_creciente ahora ahora' p Ht).
  unfold calcularMulta, PrestamoRegular.MULTA_POR_DIA,
    PrestamoCorto.MULTA_POR_DIA.
  destruct (clase p); lia.
Qed.

(** The loan of [mundoPrestado], fifteen and sixteen days after it was made. *)
Lemma X3_witness :
  0 <= calcularMulta quinceDiasDespues
         (nuevoPrestamo 2 instante0 PrestamoRegular elHobbit 1)
    <= calcularMulta (quinceDiasDespues + msPerDay)
         (nuevoPrestamo 2 instante0 PrestamoRegular elHobbit 1).
Proof.
  apply (X3_multa_creciente _ quinceDiasDespues (quinceDiasDespues + msPerDay)).
  vm_compute. discriminate.
Defined.

(** X4. A loan owes nothing exactly when it is not overdue or is a
    Reference or Digital loan; an overdue Regular loan owes at least 50 and
    an overdue Short loan at least 100. *)
Theorem X4_multa_cero_sii (p : Prestamo) (ahora : Z) :
  (calcularMulta ahora p = 0 ↔
     estaVencido ahora p = false ∨ clase p = PrestamoReferencia
     ∨ clase p = PrestamoDigital) ∧
  (estaVencido ahora p = true → clase p = PrestamoRegular →
     50 <= calcularMulta ahora p) ∧
  (estaVencido ahora p = true → clase p = PrestamoCorto →
     100 <= calcularMulta ahora p).
Proof.
  unfold calcularMulta, PrestamoRegular.MULTA_POR_DIA,
    PrestamoCorto.MULTA_POR_DIA.
  destruct (estaVencido ahora p) eqn:E.
  - pose proof (diasVencido_positivo ahora p (proj1 (estaVencido_true _ _) E)).
    split_and!.
    + destruct (clase p); split; try lia; try (intros [?|[?|?]]; done); auto.
    + intros _ ->. lia.
    + intros _ ->. lia.
  - rewrite (diasVencido_al_dia ahora p (proj1 (estaVencido_false _ _) E)).
    split_and!; [|done..]. destruct (clase p); split; auto.
Qed.

Lemma X4_witness :
  50 <= calcularMulta quinceDiasDespues
          (nuevoPrestamo 2 instante0 PrestamoRegular elHobbit 1).
Proof.
  apply (proj1 (proj2 (X4_multa_cero_sii _ quinceDiasDespues)));
    vm_compute; reflexivity.
Defined.
End PrestamoMas.

(** * Socio: the member's own collection *)

Section SocioMas.
Import Fecha.
Local Open Scope Z_scope.

Lemma quitar_sublist p l : quitar p l `sublist_of` l.
Proof.
  induction l as [|q l IH]; [constructor|]. rewrite quitar_cons.
  destruct (mismoPrestamo q p).
  - by apply sublist_cons.
  - by apply sublist_skip.
Qed.

Lemma quitar_longitud p l :
  if existsb (λ q, mismoPrestamo q p) l
  then S (length (quitar p l)) = length l
  else quitar p l = l.
Proof.
  induction l as [|q l IH]; [done|]. rewrite quitar_cons. simpl.
  destruct (mismoPrestamo q p); simpl; [done|].
  destruct (existsb _ l); simpl; congruence.
Qed.

(** X5. [removerPrestamo] removes at most one entry and keeps the order of
    the others: if some loan of the member is the object given, the member
    holds exactly one loan fewer; otherwise the member is unchanged. *)
Theorem X5_removerPrestamo_uno_o_nada (p : Prestamo) (s : Socio) :
  prestamos (removerPrestamo p s) `sublist_of` prestamos s ∧
  if existsb (λ q, mismoPrestamo q p) (prestamos s)
  then S (librosEnPrestamo (removerPrestamo p s)) = librosEnPrestamo s
  else removerPrestamo p s = s.
Proof.
  split; [apply quitar_sublist|].
  unfold removerPrestamo, librosEnPrestamo, conPrestamos. simpl.
  pose proof (quitar_longitud p (prestamos s)) as H.
  destruct (existsb _ (prestamos s)); [done|]. rewrite H. by destruct s.
Qed.

(** X6. [tienePrestadoLibro] returns a loan of the member for that very
    book object, or nothing when the member has none; after
    [agregarPrestamo(p)] a loan for [p]'s book is always found, and it is
    the one found before if there was one, otherwise [p]. *)
Theorem X6_tienePrestadoLibro_primero (l : Libro) (s : Socio) (p : Prestamo) :
  match tienePrestadoLibro l s with
  | Some q => q ∈ prestamos s ∧ libro_ref (libro q) = libro_ref l
  | None => ∀ q, q ∈ prestamos s → libro_ref (libro q) ≠ libro_ref l
  end ∧
  tienePrestadoLibro (libro p) (agregarPrestamo p s)
    = match tienePrestadoLibro (libro p) s with
      | Some q => Some q
      | None => Some p
      end.
Proof.
  unfold tienePrestadoLibro. split.
  - destruct (list_find _ (prestamos s)) as [[k q]|] eqn:E; simpl.
    + apply list_find_Some in E as (Hk & Hq & _).
      split; [eauto using list_elem_of_lookup_2|].
      by apply bool_decide_eq_true in Hq.
    + intros q Hq Href. apply list_find_None in E.
      rewrite Forall_forall in E. apply (E q Hq).
      by apply bool_decide_eq_true.
  - simpl. destruct (list_find _ (prestamos s)) as [[k q]|] eqn:E; simpl.
    + by rewrite (list_find_app_l _ _ _ _ _ E).
    + rewrite list_find_app_r by done. simpl.
      by rewrite decide_True by apply mismoLibro_refl.
Qed.

Lemma suma_desde (f : Prestamo → Z) (l : list Prestamo) (a : Z) :
  foldl (λ total p, total + f p) a l
  = a + foldl (λ total p, total + f p) 0 l.
Proof.
  revert a. induction l as [|p l IH]; intros a; simpl; [lia|].
  rewrite IH, (IH (0 + f p)). lia.
Qed.

Lemma multaTotal_cons ahora c i n a p ps :
  Socio_getMultaTotal ahora
    {| clase_socio := c; id := i; nombre := n; apellido := a;
       prestamos := p :: ps |}
  = calcularMulta ahora p
    + Socio_getMultaTotal ahora
        {| clase_socio := c; id := i; nombre := n; apellido := a;
           prestamos := ps |}.
Proof. unfold Socio_getMultaTotal. simpl. rewrite suma_desde. lia. Qed.

Lemma estaVencido_multa_cero ahora p :
  estaVencido ahora p = false → calcularMulta ahora p = 0.
Proof.
  intros H%estaVencido_false. unfold calcularMulta.
  rewrite (diasVencido_al_dia ahora p H). by destruct (clase p).
Qed.

Lemma multa_no_negativa ahora p : 0 <= calcularMulta ahora p.
Proof.
  pose proof (diasVencido_creciente ahora ahora p ltac:(lia)).
  unfold calcularMulta, PrestamoRegular.MULTA_POR_DIA,
    PrestamoCorto.MULTA_POR_DIA.
  destruct (clase p); lia.
Qed.

Lemma Socio_getMultaTotal_cotas ahora s :
  0 <= Socio_getMultaTotal ahora s ∧
  (tieneLibrosVencidos ahora s = false → Socio_getMultaTotal ahora s = 0).
Proof.
  destruct s as [c i n a ps]. unfold tieneLibrosVencidos. simpl.
  induction ps as [|p ps IH].
  - by split.
  - rewrite multaTotal_cons. simpl. destruct IH as [IH0 IH1].
    pose proof (multa_no_negativa ahora p). split; [lia|].
    intros [Hp Hps]%orb_false_elim.
    rewrite (estaVencido_multa_cero ahora p Hp), IH1 by done. lia.
Qed.

(** X7. The total fine of a member is never negative, and it is positive
    only for a member who is not VIP and has at least one overdue loan. *)
Theorem X7_multa_total_exige_vencidos (ahora : Z) (s : Socio) :
  0 <= getMultaTotal ahora s ∧
  (getMultaTotal ahora s = 0 ∨
   (tieneLibrosVencidos ahora s = true ∧ clase_socio s ≠ SocioVIP)).
Proof.
  destruct (Socio_getMultaTotal_cotas ahora s) as [H0 H1].
  unfold getMultaTotal.
  destruct (clase_socio s) eqn:Hc; try (split; [lia|by left]);
    (split; [done|]);
    (destruct (tieneLibrosVencidos ahora s); [by right|left; auto]).
Qed.

(** X8. [getLibrosVencidos] keeps, in the member's order, exactly the loans
    whose due date has passed, and it is empty exactly when
    [tieneLibrosVencidos] is false. *)
Theorem X8_getLibrosVencidos (ahora : Z) (s : Socio) :
  getLibrosVencidos ahora s `sublist_of` prestamos s ∧
  (∀ p, p ∈ getLibrosVencidos ahora s ↔
        p ∈ prestamos s ∧ fechaVencimiento p < ahora) ∧
  (tieneLibrosVencidos ahora s = false ↔ getLibrosVencidos ahora s = []).
Proof.
  unfold getLibrosVencidos, tieneLibrosVencidos. split_and!.
  - induction (prestamos s) as [|p ps IH]; simpl; [constructor|].
    destruct (estaVencido ahora p); by constructor.
  - intros p. rewrite list_elem_of_In, filter_In, <- list_elem_of_In.
    by rewrite estaVencido_true.
  - induction (prestamos s) as [|p ps IH]; simpl; [done|].
    destruct (estaVencido ahora p); simpl; [split; discriminate|done].
Qed.
End SocioMas.

(** * Policies compared *)

Section PoliticaMas.
Import Fecha.
Local Open Scope Z_scope.

(** X9. PoliticaEstricta is the strictest of the four: whenever it permits
    the renewal of a loan, every policy permits that renewal and every
    policy lets the member borrow. *)
Theorem X9_estricta_es_la_mas_estricta (pol : IPoliticaPrestamo) (ahora : Z)
    (socio : Socio) (l : Libro) (p : Prestamo) :
  Politica.permiteRenovacion PoliticaEstricta ahora socio p = true →
  Politica.permiteRenovacion pol ahora socio p = true ∧
  Politica.puedeRetirar pol ahora socio l = true.
Proof.
  simpl. intros [Hs Hp]%andb_true_iff.
  apply negb_true_iff in Hp. split.
  - destruct pol; simpl.
    + by rewrite Hs, Hp.
    + rewrite (diasVencido_al_dia ahora p (proj1 (estaVencido_false _ _) Hp)).
      done.
    + rewrite Hp. by destruct (PoliticaEstudiante.enExamenes ahora).
    + done.
  - by destruct pol.
Qed.

(** One day into the loan of [mundoPrestado]. *)
Lemma X9_witness :
  Politica.permiteRenovacion PoliticaFlexible (instante0 + msPerDay)
    {| clase_socio := SocioRegular; id := 1; nombre := "Ana";
       apellido := "Paz";
       prestamos := [nuevoPrestamo 2 instante0 PrestamoRegular elHobbit 1] |}
    (nuevoPrestamo 2 instante0 PrestamoRegular elHobbit 1) = true ∧
  Politica.puedeRetirar PoliticaFlexible (instante0 + msPerDay)
    {| clase_socio := SocioRegular; id := 1; nombre := "Ana";
       apellido := "Paz";
       prestamos := [nuevoPrestamo 2 instante0 PrestamoRegular elHobbit 1] |}
    elHobbit = true.
Proof.
  apply (X9_estricta_es_la_mas_estricta PoliticaFlexible). vm_compute.
  reflexivity.
Defined.

(** X10. PoliticaFlexible permits a renewal exactly until 7 days (of 24
    hours) past the due date, to the millisecond and whatever the member. *)
Theorem X10_flexible_siete_dias (ahora : Z) (socio : Socio) (p : Prestamo) :
  Politica.permiteRenovacion PoliticaFlexible ahora socio p = true ↔
  ahora <= fechaVencimiento p + 7 * msPerDay.
Proof.
  simpl. rewrite Z.leb_le.
  destruct (Z.le_gt_cases ahora (fechaVencimiento p)) as [H|H].
  - rewrite (diasVencido_al_dia ahora p H). unfold msPerDay. lia.
  - pose proof (diasVencido_cotas ahora p H) as Hc. unfold msPerDay in *. lia.
Qed.

(** X11. For a base duration that is not negative the policies are
    ordered: Flexible gives at most the base and at least half of it
    (rounded down), Estricta the base, Estudiante at least the base and at
    most twice the base; Docente gives 60 whatever the base. *)
Theorem X11_duraciones_ordenadas (ahora : Z) (socio : Socio) (base : Z) :
  0 <= base →
  base / 2 <= Politica.calcularDuracion PoliticaFlexible ahora socio base
    <= Politica.calcularDuracion PoliticaEstricta ahora socio base ∧
  Politica.calcularDuracion PoliticaEstricta ahora socio base = base ∧
  base <= Politica.calcularDuracion PoliticaEstudiante ahora socio base
    <= 2 * base ∧
  Politica.calcularDuracion PoliticaDocente ahora socio base = 60.
Proof.
  intros Hb. simpl. unfold Math_floor_div.
  destruct (tieneLibrosVencidos ahora socio),
    (PoliticaEstudiante.enExamenes ahora);
    split_and!; try done; try lia; Z.div_mod_to_equations; lia.
Qed.

Lemma X11_witness :
  14 / 2 <= Politica.calcularDuracion PoliticaFlexible quinceDiasDespues
              {| clase_socio := SocioRegular; id := 1; nombre := "Ana";
                 apellido := "Paz";
                 prestamos := [nuevoPrestamo 2 instante0 PrestamoRegular
                                 elHobbit 1] |} 14
    <= 14.
Proof.
  apply (proj1 (X11_duraciones_ordenadas quinceDiasDespues _ 14
                  ltac:(vm_compute; discriminate))).
Defined.
End PoliticaMas.

(** * Biblioteca: registering, looking up, lending and renewing *)

Section BibliotecaMas.
Import Fecha.
Local Open Scope Z_scope.

Lemma list_find_snoc_otro {A} (P : A → Prop) `{∀ x, Decision (P x)}
    (l : list A) (x : A) :
  ¬ P x → list_find P (l ++ [x]) = list_find P l.
Proof.
  intros Hx. destruct (list_find P l) as [[k y]|] eqn:E.
  - by apply list_find_app_l.
  - rewrite list_find_app_r by done. simpl. by rewrite decide_False.
Qed.

Lemma list_find_snoc_nuevo {A} (P : A → Prop) `{∀ x, Decision (P x)}
    (l : list A) (x : A) :
  P x →
  list_find P (l ++ [x])
  = match list_find P l with
    | Some hallado => Some hallado
    | None => Some (length l, x)
    end.
Proof.
  intros Hx. destruct (list_find P l) as [[k y]|] eqn:E.
  - by apply list_find_app_l.
  - rewrite list_find_app_r by done. simpl. by rewrite decide_True.
Qed.

(** X12. [registrarSocio] appends a member without loans and does not check
    whether the id is taken: [buscarSocio] of that id afterwards returns the
    member registered first with it (the new one only if the id was free),
    and lookups of every other id are unaffected. *)
Theorem X12_registrar_y_buscar (tipo : TipoSocio.t) (id_ : Z)
    (nombre apellido : string) (w : Mundo) :
  ∃ nuevo w',
    registrarSocio tipo id_ nombre apellido w = (w', inr nuevo) ∧
    id nuevo = id_ ∧ prestamos nuevo = [] ∧
    socios (biblioteca w') = socios (biblioteca w) ++ [nuevo] ∧
    prestamosActivos (biblioteca w') = prestamosActivos (biblioteca w) ∧
    buscarSocio id_ (biblioteca w')
      = match buscarSocio id_ (biblioteca w) with
        | Some hallado => Some hallado
        | None => Some (totalSocios (biblioteca w), nuevo)
        end ∧
    ∀ otro, otro ≠ id_ →
      buscarSocio otro (biblioteca w') = buscarSocio otro (biblioteca w).
Proof.
  eexists _, _. split; [reflexivity|]. simpl. split_and!; try done.
  - unfold buscarSocio, totalSocios. simpl. by apply list_find_snoc_nuevo.
  - intros otro Hne. unfold buscarSocio. simpl.
    apply list_find_snoc_otro. simpl. congruence.
Qed.


Lemma estaLibroPrestado_tras_prestar l b p :
  libro p = l →
  existsb (λ q, mismoLibro (libro q) l) (prestamosActivos b ++ [p]) = true.
Proof.
  intros <-. rewrite existsb_app. simpl.
  rewrite mismoLibro_refl. by rewrite orb_true_r.
Qed.

Local Abbreviation prestadoEn libroISBN w :=
  (∃ l, buscarLibro libroISBN (biblioteca w) = Some l ∧
        estaLibroPrestado l (biblioteca w) = true).

Lemma prestado_no_disponible (ahora idSocio : Z) (libroISBN : string)
    (tipo : TipoPrestamo.t) (w : Mundo) :
  prestadoEn libroISBN w →
  is_Some (buscarSocio idSocio (biblioteca w)) →
  crearPrestamo ahora idSocio libroISBN tipo w = (w, inl Unavailable).
Proof.
  intros (l & Hl & Hd) [[j s] Hs]. unfold crearPrestamo. desplegar.
  by rewrite Hs, Hl, Hd.
Qed.

Lemma prestado_tras (libroISBN : string) (c : Llamada) (w : Mundo) :
  prestadoEn libroISBN w →
  match c with DevolverLibro _ _ _ => False | _ => True end →
  prestadoEn libroISBN (tras c w).
Proof.
  intros (l & Hl & Hd) Hc. unfold tras.
  destruct c as [t a i|t i n a|t|ahora s k t|ahora s k|ahora s k];
    simpl; try done.
  - exists l. split; [|done]. unfold buscarLibro in *. simpl.
    apply fmap_Some in Hl as ([j y] & Hf & ->).
    by rewrite (list_find_app_l _ _ _ _ _ Hf).
  - by exists l.
  - by exists l.
  - destruct (crearPrestamo_efecto ahora s k t w)
      as [(e & w' & -> & Hb & _)
         |(i & socio & lib & c & _ & _ & _ & _ & _ & ->)]; simpl.
    + exists l. by rewrite Hb.
    + exists l. split; [done|]. unfold estaLibroPrestado in *. simpl.
      by rewrite existsb_app, Hd.
  - destruct (renovarPrestamo_efecto ahora s k w) as [Hb _].
    exists l. by rewrite Hb.
Qed.

Lemma prestado_correr (libroISBN : string) (cs : list Llamada) (w : Mundo) :
  prestadoEn libroISBN w →
  Forall (λ c, match c with DevolverLibro _ _ _ => False | _ => True end) cs →
  prestadoEn libroISBN (correr cs w).
Proof.
  revert w. induction cs as [|c cs IH]; intros w Hw Hcs; [done|].
  apply Forall_cons in Hcs as [Hc Hcs]. simpl.
  apply IH; [|done]. by apply prestado_tras.
Qed.

(** X14. Once [crearPrestamo] has returned, and for as long as
    [devolverLibro] is not called, every [crearPrestamo] for the same ISBN
    by a registered member throws Unavailable and changes nothing, whatever
    the member, the loan kind and the time, and whatever other calls were
    made in between (books added, members registered, policy changes, other
    loans, renewals). *)
Theorem X14_no_se_presta_dos_veces (ahora ahora' idSocio idSocio' : Z)
    (libroISBN : string) (tipo tipo' : TipoPrestamo.t)
    (cs : list Llamada) (w w1 : Mundo) :
  crearPrestamo ahora idSocio libroISBN tipo w = (w1, inr tt) →
  Forall (λ c, match c with DevolverLibro _ _ _ => False | _ => True end) cs →
  is_Some (buscarSocio idSocio' (biblioteca (correr cs w1))) →
  crearPrestamo ahora' idSocio' libroISBN tipo' (correr cs w1)
  = (correr cs w1, inl Unavailable).
Proof.
  intros Hcrear Hcs Hs. apply prestado_no_disponible; [|done].
  apply prestado_correr; [|done].
  destruct (crearPrestamo_efecto ahora idSocio libroISBN tipo w)
    as [(e & w0 & Heq & _)|(i & socio & l & c & _ & Hl & _ & _ & _ & Heq)];
    rewrite Heq in Hcrear; [discriminate|].
  injection Hcrear as <-. exists l. split; [done|].
  unfold estaLibroPrestado. simpl. by apply estaLibroPrestado_tras_prestar.
Qed.

(** In [mundoPrestado], member 1 lends "isbn-2"; then the policy changes, a
    member and a book are registered, and the new member asks for "isbn-2". *)
Lemma X14_witness :
  snd (crearPrestamo quinceDiasDespues 2 "isbn-2" TipoPrestamo.DIGITAL
         (correr [CambiarPolitica TipoPolitica.DOCENTE;
                  RegistrarSocio TipoSocio.VIP 2 "Eva" "Sol";
                  AgregarLibro "Ficciones" "Borges" "isbn-3";
                  CrearPrestamo instante0 2 "isbn-3" TipoPrestamo.REGULAR;
                  RenovarPrestamo instante0 1 "isbn-1"]
            (fst (crearPrestamo instante0 1 "isbn-2" TipoPrestamo.CORTO
                    mundoPrestado))))
  = inl Unavailable.
Proof.
  rewrite (X14_no_se_presta_dos_veces instante0 quinceDiasDespues 1 2
             "isbn-2" TipoPrestamo.CORTO TipoPrestamo.DIGITAL
             [CambiarPolitica TipoPolitica.DOCENTE;
              RegistrarSocio TipoSocio.VIP 2 "Eva" "Sol";
              AgregarLibro "Ficciones" "Borges" "isbn-3";
              CrearPrestamo instante0 2 "isbn-3" TipoPrestamo.REGULAR;
              RenovarPrestamo instante0 1 "isbn-1"]
             mundoPrestado
             (fst (crearPrestamo instante0 1 "isbn-2" TipoPrestamo.CORTO
                     mundoPrestado))).
  - reflexivity.
  - vm_compute. reflexivity.
  - repeat constructor.
  - vm_compute. eauto.
Defined.

(** X15. [devolverLibro] throws NotBorrowed, and changes nothing, when the
    member does not hold the book, even if the book is on loan to somebody
    else; when it returns it has written the line "Multa generada" with the
    loan's fine to the console exactly if that fine is positive. *)
Theorem X15_devolverLibro_multa (ahora idSocio : Z) (libroISBN : string)
    (w : Mundo) (indice : nat) (socio : Socio) (l : Libro) :
  buscarSocio idSocio (biblioteca w) = Some (indice, socio) →
  buscarLibro libroISBN (biblioteca w) = Some l →
  match tienePrestadoLibro l socio with
  | None => devolverLibro ahora idSocio libroISBN w = (w, inl NotBorrowed)
  | Some p =>
      ∃ w', devolverLibro ahora idSocio libroISBN w = (w', inr tt) ∧
        consola w'
          = consola w ++
            (if calcularMulta ahora p >? 0
             then [ConsoleLog "Multa generada: $" (calcularMulta ahora p)]
             else []) ∧
        librosEnPrestamo socio
          = S (librosEnPrestamo (removerPrestamo p socio)) ∧
        socios (biblioteca w')
          = <[indice := removerPrestamo p socio]> (socios (biblioteca w))
  end.
Proof.
  intros Hs Hl. unfold devolverLibro. desplegar. rewrite Hs, Hl.
  destruct (tienePrestadoLibro l socio) as [p|] eqn:Hp; [|done].
  assert (alter (removerPrestamo p) indice (socios (biblioteca w))
          = <[indice := removerPrestamo p socio]> (socios (biblioteca w))) as Ha.
  { apply alter_lookup_insert.
    unfold buscarSocio in Hs. by apply list_find_Some in Hs as (? & _). }
  assert (Hlen : librosEnPrestamo socio
                 = S (librosEnPrestamo (removerPrestamo p socio))).
  { unfold librosEnPrestamo, removerPrestamo. simpl.
    pose proof (quitar_longitud p (prestamos socio)) as Hq.
    unfold tienePrestadoLibro in Hp.
    apply fmap_Some in Hp as ([k x] & (Hk & _)%list_find_Some & ->).
    simpl in *. replace (existsb _ (prestamos socio)) with true in Hq; [done|].
    symmetry. apply existsb_exists. exists x. split.
    - apply list_elem_of_In. eauto using list_elem_of_lookup_2.
    - by apply mismoPrestamo_true. }
  destruct (calcularMulta ahora p >? 0); simpl;
    destruct (indexOf p (prestamosActivos (biblioteca w))); simpl;
    eexists; (split; [reflexivity|]); simpl; rewrite ?app_nil_r, Ha; done.
Qed.

(** Member 1 of [mundoPrestado] returns "isbn-1" one day late. *)
Lemma X15_witness :
  ∃ w', devolverLibro quinceDiasDespues 1 "isbn-1" mundoPrestado = (w', inr tt) ∧
        consola w' = [ConsoleLog "Multa generada: $" 50].
Proof.
  pose proof (X15_devolverLibro_multa quinceDiasDespues 1 "isbn-1"
                mundoPrestado 0
                {| clase_socio := SocioRegular; id := 1; nombre := "Ana";
                   apellido := "Paz";
                   prestamos := [nuevoPrestamo 2 instante0 PrestamoRegular
                                   elHobbit 1] |}
                elHobbit eq_refl eq_refl) as H.
  destruct H as (w' & Hd & Hc & _). exists w'. split; [exact Hd|exact Hc].
Defined.

(** X16. For a member who holds the book: under PoliticaDocente
    [renovarPrestamo] always returns; under PoliticaEstricta it throws, and
    changes nothing, as soon as the member has any overdue loan, even when
    the loan to renew is not overdue itself. *)
Theorem X16_renovar_docente_y_estricta (ahora idSocio : Z)
    (libroISBN : string) (w : Mundo) (indice : nat) (socio : Socio)
    (l : Libro) (p : Prestamo) :
  buscarSocio idSocio (biblioteca w) = Some (indice, socio) →
  buscarLibro libroISBN (biblioteca w) = Some l →
  tienePrestadoLibro l socio = Some p →
  (politicaActual (biblioteca w) = PoliticaDocente →
     ∃ w', renovarPrestamo ahora idSocio libroISBN w = (w', inr tt)) ∧
  (politicaActual (biblioteca w) = PoliticaEstricta →
     tieneLibrosVencidos ahora socio = true →
     renovarPrestamo ahora idSocio libroISBN w = (w, inl RenewalDenied)).
Proof.
  intros Hs Hl Hp. unfold renovarPrestamo. desplegar. rewrite Hs, Hl, Hp.
  split.
  - intros ->. simpl. eauto.
  - intros -> Hv. simpl. by rewrite Hv.
Qed.

(** Member 1 of [mundoPrestado] renews "isbn-1" a day after it fell due:
    granted under PoliticaDocente, refused under PoliticaEstricta. *)
Lemma X16_witness :
  (∃ w', renovarPrestamo quinceDiasDespues 1 "isbn-1"
           (tras (CambiarPolitica TipoPolitica.DOCENTE) mundoPrestado)
         = (w', inr tt)) ∧
  renovarPrestamo quinceDiasDespues 1 "isbn-1" mundoEstricto
  = (mundoEstricto, inl RenewalDenied).
Proof.
  split.
  - apply (proj1 (X16_renovar_docente_y_estricta quinceDiasDespues 1 "isbn-1"
                    (tras (CambiarPolitica TipoPolitica.DOCENTE) mundoPrestado)
                    0
                    {| clase_socio := SocioRegular; id := 1; nombre := "Ana";
                       apellido := "Paz";
                       prestamos := [nuevoPrestamo 2 instante0 PrestamoRegular
                                       elHobbit 1] |}
                    elHobbit
                    (nuevoPrestamo 2 instante0 PrestamoRegular elHobbit 1)
                    eq_refl eq_refl eq_refl)).
    reflexivity.
  - apply (proj2 (X16_renovar_docente_y_estricta quinceDiasDespues 1 "isbn-1"
                    mundoEstricto 0
                    {| clase_socio := SocioRegular; id := 1; nombre := "Ana";
                       apellido := "Paz";
                       prestamos := [nuevoPrestamo 2 instante0 PrestamoRegular
                                       elHobbit 1] |}
                    elHobbit
                    (nuevoPrestamo 2 instante0 PrestamoRegular elHobbit 1)
                    eq_refl eq_refl eq_refl)); reflexivity.
Defined.
End BibliotecaMas.

(** * Coherence is kept by every call *)

Section CoherenciaFacts.
Local Open Scope Z_scope.

Lemma quitar_NoDup_fmap {B} (f : Prestamo → B) p l :
  NoDup (f <$> l) → NoDup (f <$> quitar p l).
Proof.
  induction l as [|q l IH]; [done|]. rewrite quitar_cons, fmap_cons, NoDup_cons.
  intros [Hq Hl]. destruct (mismoPrestamo q p); [done|].
  rewrite fmap_cons, NoDup_cons. split; [|auto].
  intros (x & Hx & Hin)%list_elem_of_fmap. apply Hq, list_elem_of_fmap.
  exists x. eauto using elem_of_quitar_inv.
Qed.

Lemma filter_quitar_si (g : Prestamo → bool) p l :
  (∀ x, x ∈ l → prestamo_ref x = prestamo_ref p → g x = true) →
  List.filter g (quitar p l) = quitar p (List.filter g l).
Proof.
  induction l as [|q l IH]; intros H; [done|].
  assert (IH' : List.filter g (quitar p l) = quitar p (List.filter g l)).
  { apply IH. intros x Hx. apply H. by right. }
  rewrite quitar_cons. simpl. destruct (mismoPrestamo q p) eqn:E.
  - rewrite (H q); [|by left|by apply mismoPrestamo_true].
    by rewrite quitar_cons, E.
  - simpl. destruct (g q); [|done]. by rewrite quitar_cons, E, IH'.
Qed.

Lemma filter_quitar_no (g : Prestamo → bool) p l :
  (∀ x, x ∈ l → prestamo_ref x = prestamo_ref p → g x = false) →
  List.filter g (quitar p l) = List.filter g l.
Proof.
  induction l as [|q l IH]; intros H; [done|].
  assert (IH' : List.filter g (quitar p l) = List.filter g l).
  { apply IH. intros x Hx. apply H. by right. }
  rewrite quitar_cons. simpl. destruct (mismoPrestamo q p) eqn:E.
  - by rewrite (H q); [|by left|by apply mismoPrestamo_true].
  - simpl. by rewrite IH'.
Qed.

(** The index that [buscarSocio] finds only depends on the ids, in order. *)
Lemma indice_por_ids (k : Z) (l l' : list Socio) :
  id <$> l = id <$> l' →
  fst <$> list_find (λ s, id s = k) l = fst <$> list_find (λ s, id s = k) l'.
Proof.
  revert l'. induction l as [|s l IH]; intros [|s' l'] [=]; [done|].
  cbn [list_find]. rewrite <- H0.
  case_decide; [done|]. specialize (IH l' H1).
  destruct (list_find _ l) as [[? ?]|], (list_find _ l') as [[? ?]|];
    simpl in *; congruence.
Qed.

Lemma ids_tras_mutar (l : list Socio) i s s' :
  l !! i = Some s → id s' = id s → id <$> <[i := s']> l = id <$> l.
Proof.
  intros Hi Hid. rewrite list_fmap_insert, Hid. apply list_insert_id.
  by rewrite list_lookup_fmap, Hi.
Qed.

Lemma indiceSocio_tras_mutar k b i s s' x y z :
  socios b !! i = Some s → id s' = id s →
  indiceSocio k {| inventario := x; socios := <[i := s']> (socios b);
                   prestamosActivos := y; politicaActual := z |}
  = indiceSocio k b.
Proof.
  intros Hi Hid. unfold indiceSocio, buscarSocio. simpl.
  apply indice_por_ids. by eapply ids_tras_mutar.
Qed.

Lemma indiceSocio_Some k b i s :
  buscarSocio k b = Some (i, s) → indiceSocio k b = Some i.
Proof. unfold indiceSocio. by intros ->. Qed.

Lemma indiceSocio_de_miembro b j s :
  socios b !! j = Some s → is_Some (indiceSocio (id s) b).
Proof.
  intros Hj. unfold indiceSocio, buscarSocio.
  destruct (list_find_elem_of (λ x, id x = id s) (socios b) s) as [[k y] ->];
    eauto using list_elem_of_lookup_2.
Qed.

Lemma filter_vacio {A} (g : A → bool) (l : list A) :
  (∀ x, x ∈ l → g x = false) → List.filter g l = [].
Proof.
  induction l as [|x l IH]; intros H; [done|]. simpl.
  rewrite (H x) by left. apply IH. intros y Hy. apply H. by right.
Qed.

Lemma coherente_inicial : coherente mundoInicial.
Proof.
  split; simpl.
  - by intros p ?%elem_of_nil.
  - constructor.
  - by intros p ?%elem_of_nil.
  - intros j s. by rewrite lookup_nil.
Qed.

Lemma coherente_mismo w w' :
  coherente w → biblioteca w' = biblioteca w → coherente w'.
Proof. intros [H1 H2 H3 H4] Hb. split; rewrite Hb; done. Qed.

Lemma coherente_agregarLibro w n c r :
  coherente w →
  coherente {| biblioteca := conInventario (biblioteca w)
                               (inventario (biblioteca w) ++ [n]);
               consola := c; siguienteRef := r |}.
Proof.
  intros [H1 H2 H3 H4]. split; simpl; try done.
  intros p Hp. specialize (H1 p Hp). unfold buscarLibro in *. simpl.
  apply fmap_Some in H1 as ([k y] & Hf & Heq). simpl in Heq.
  rewrite (list_find_app_l _ _ _ _ _ Hf). simpl. by rewrite Heq.
Qed.

Lemma coherente_registrar w n c r :
  coherente w → prestamos n = [] →
  coherente {| biblioteca := conSocios (biblioteca w)
                               (socios (biblioteca w) ++ [n]);
               consola := c; siguienteRef := r |}.
Proof.
  intros [H1 H2 H3 H4] Hn.
  assert (Hind : ∀ k, is_Some (indiceSocio k (biblioteca w)) →
            indiceSocio k (conSocios (biblioteca w) (socios (biblioteca w) ++ [n]))
            = indiceSocio k (biblioteca w)).
  { intros k [i Hi]. unfold indiceSocio, buscarSocio in *. simpl.
    apply fmap_Some in Hi as ([i' y] & Hf & ->).
    by rewrite (list_find_app_l _ _ _ _ _ Hf), Hf. }
  split; simpl; try done.
  - intros p Hp. rewrite Hind; auto.
  - intros j s [Hj|[Hlen Hj]]%lookup_app_Some.
    + rewrite Hind by eauto using indiceSocio_de_miembro. by apply H4.
    + apply list_lookup_singleton_Some in Hj as [_ <-]. rewrite Hn.
      case_decide as Hd; [|done].
      unfold obtenerPrestamosPorSocio. simpl. symmetry. apply filter_vacio.
      intros p Hp. apply bool_decide_eq_false. intros Hid.
      destruct (H3 p Hp) as [i Hi]. rewrite Hid in Hi.
      rewrite Hind in Hd by eauto. rewrite Hi in Hd. injection Hd as ->.
      unfold indiceSocio, buscarSocio in Hi.
      apply fmap_Some in Hi as ([i' y] & (Hlook%lookup_lt_Some & _)%list_find_Some & Hi').
      simpl in Hi'. lia.
Qed.

(** Appending a new loan for a free book to both collections. *)
Lemma coherente_agregar w i socio l p c r idSocio libroISBN :
  coherente w →
  buscarSocio idSocio (biblioteca w) = Some (i, socio) →
  buscarLibro libroISBN (biblioteca w) = Some l →
  estaLibroPrestado l (biblioteca w) = false →
  libro p = l → socioId p = idSocio →
  coherente
    {| biblioteca :=
         {| inventario := inventario (biblioteca w);
            socios := <[i := agregarPrestamo p socio]> (socios (biblioteca w));
            prestamosActivos := prestamosActivos (biblioteca w) ++ [p];
            politicaActual := politicaActual (biblioteca w) |};
       consola := c; siguienteRef := r |}.
Proof.
  intros [H1 H2 H3 H4] Hs Hl Hd Hlp Hsp.
  pose proof Hs as (Hi & Hid & _)%list_find_Some.
  assert (Hind : ∀ k x y z,
            indiceSocio k {| inventario := x;
                             socios := <[i := agregarPrestamo p socio]>
                                         (socios (biblioteca w));
                             prestamosActivos := y; politicaActual := z |}
            = indiceSocio k (biblioteca w)).
  { intros. by eapply indiceSocio_tras_mutar. }
  split; simpl.
  - intros q [Hq| ->%list_elem_of_singleton]%elem_of_app.
    + by apply H1.
    + rewrite Hlp. unfold buscarLibro in *. simpl.
      apply fmap_Some in Hl as ([k y] & Hf & ->). simpl.
      pose proof Hf as (_ & -> & _)%list_find_Some. by rewrite Hf.
  - rewrite fmap_app. apply NoDup_app. split; [done|].
    split; [|apply NoDup_singleton].
    intros x (q & -> & Hq)%list_elem_of_fmap Hx%list_elem_of_singleton.
    pose proof (estaLibroPrestado_false l (biblioteca w) q Hd Hq) as Hne.
    unfold mismoLibro in Hne. apply bool_decide_eq_false in Hne.
    simpl in Hx. congruence.
  - intros q Hq. rewrite Hind.
    apply elem_of_app in Hq as [Hq| ->%list_elem_of_singleton]; [auto|].
    rewrite Hsp. rewrite (indiceSocio_Some _ _ _ _ Hs). eauto.
  - intros j s Hj. rewrite Hind. unfold obtenerPrestamosPorSocio. simpl.
    rewrite List.filter_app. simpl.
    apply list_lookup_insert_Some in Hj as [(<- & <- & _)|[Hne Hj]].
    + simpl. rewrite Hid, (indiceSocio_Some _ _ _ _ Hs).
      rewrite decide_True by done. rewrite Hsp, bool_decide_true by done.
      specialize (H4 i socio Hi). rewrite Hid, (indiceSocio_Some _ _ _ _ Hs) in H4.
      rewrite decide_True in H4 by done. by rewrite H4.
    + specialize (H4 j s Hj). case_decide as Hdj; [|done].
      rewrite bool_decide_false, app_nil_r; [done|].
      intros Heq. rewrite Hsp in Heq. rewrite <- Heq in Hdj.
      rewrite (indiceSocio_Some _ _ _ _ Hs) in Hdj. congruence.
Qed.

(** Removing a member's loan from both collections. *)
Lemma coherente_quitar w i socio p c r idSocio :
  sincronizado w → coherente w →
  buscarSocio idSocio (biblioteca w) = Some (i, socio) →
  p ∈ prestamos socio →
  coherente
    {| biblioteca :=
         {| inventario := inventario (biblioteca w);
            socios := <[i := removerPrestamo p socio]> (socios (biblioteca w));
            prestamosActivos := quitar p (prestamosActivos (biblioteca w));
            politicaActual := politicaActual (biblioteca w) |};
       consola := c; siguienteRef := r |}.
Proof.
  intros [S1 S2 S3 S4 S5 S6] [H1 H2 H3 H4] Hs Hp.
  pose proof Hs as (Hi & Hid & _)%list_find_Some.
  assert (Hind : ∀ k x y z,
            indiceSocio k {| inventario := x;
                             socios := <[i := removerPrestamo p socio]>
                                         (socios (biblioteca w));
                             prestamosActivos := y; politicaActual := z |}
            = indiceSocio k (biblioteca w)).
  { intros. by eapply indiceSocio_tras_mutar. }
  assert (Hpa : p ∈ prestamosActivos (biblioteca w)) by eauto.
  assert (Huno : ∀ x, x ∈ prestamosActivos (biblioteca w) →
            prestamo_ref x = prestamo_ref p → x = p)
    by eauto using ref_inyectiva.
  assert (Hsp : socioId p = idSocio).
  { specialize (H4 i socio Hi). rewrite Hid, (indiceSocio_Some _ _ _ _ Hs) in H4.
    rewrite decide_True in H4 by done. rewrite H4 in Hp.
    unfold obtenerPrestamosPorSocio in Hp.
    apply list_elem_of_In, filter_In in Hp as [_ Hp].
    by apply bool_decide_eq_true in Hp. }
  split; simpl.
  - intros q Hq%elem_of_quitar_inv. by apply H1.
  - by apply quitar_NoDup_fmap.
  - intros q Hq%elem_of_quitar_inv. rewrite Hind. auto.
  - intros j s Hj. rewrite Hind. unfold obtenerPrestamosPorSocio. simpl.
    apply list_lookup_insert_Some in Hj as [(<- & <- & _)|[Hne Hj]].
    + simpl. rewrite Hid, (indiceSocio_Some _ _ _ _ Hs).
      rewrite decide_True by done.
      specialize (H4 i socio Hi). rewrite Hid, (indiceSocio_Some _ _ _ _ Hs) in H4.
      rewrite decide_True in H4 by done. rewrite H4.
      unfold obtenerPrestamosPorSocio. symmetry. apply filter_quitar_si.
      intros x Hx Hr. rewrite (Huno x Hx Hr). by apply bool_decide_eq_true.
    + specialize (H4 j s Hj). case_decide as Hdj; [|done].
      rewrite filter_quitar_no; [done|].
      intros x Hx Hr. rewrite (Huno x Hx Hr). apply bool_decide_eq_false.
      intros Heq. rewrite Hsp in Heq. rewrite <- Heq in Hdj.
      rewrite (indiceSocio_Some _ _ _ _ Hs) in Hdj. congruence.
Qed.

Lemma coherente_tras w c : sincronizado w → coherente w → coherente (tras c w).
Proof.
  intros Hsinc Hw. unfold tras.
  destruct c as [t a i|t i n a|t|ahora s l t|ahora s l|ahora s l]; simpl.
  - by apply coherente_agregarLibro.
  - by apply coherente_registrar.
  - destruct Hw as [H1 H2 H3 H4]. split; done.
  - destruct (crearPrestamo_efecto ahora s l t w)
      as [(e & w' & -> & Hb & _)
         |(i & socio & lib & c & Hs & Hl & Hd & _ & _ & ->)]; simpl.
    + by eapply coherente_mismo.
    + by eapply coherente_agregar.
  - destruct (devolverLibro_efecto ahora s l w)
      as [(e & -> & _)|(i & socio & lib & p & w' & Hs & _ & Hp & -> & Hb & _)];
      simpl; [done|].
    unfold tienePrestadoLibro in Hp.
    apply fmap_Some in Hp as ([k x] & (Hk & _)%list_find_Some & ->). simpl in *.
    eapply (coherente_mismo
              {| biblioteca := _; consola := consola w;
                 siguienteRef := siguienteRef w |}); [|exact Hb].
    eapply coherente_quitar; eauto using list_elem_of_lookup_2.
  - destruct (renovarPrestamo_efecto ahora s l w) as [Hb _].
    by eapply coherente_mismo.
Qed.

Lemma alcanzable_coherente w : alcanzable w → coherente w.
Proof.
  induction 1 as [|w c Hw IH]; [apply coherente_inicial|].
  apply coherente_tras; [by apply alcanzable_sincronizado|done].
Qed.
End CoherenciaFacts.

(** * Biblioteca: what holds in every reachable state *)

Section AlcanzableMas.
Local Open Scope Z_scope.

Lemma NoDup_fmap_iguales {A B} (f : A → B) (l : list A) x y :
  NoDup (f <$> l) → x ∈ l → y ∈ l → f x = f y → x = y.
Proof.
  induction l as [|z l IH]; [by intros _ ?%elem_of_nil|].
  rewrite fmap_cons, NoDup_cons, !elem_of_cons.
  intros [Hz Hl] [->|Hx] [->|Hy] Hf.
  - done.
  - destruct Hz. apply list_elem_of_fmap. eauto.
  - destruct Hz. apply list_elem_of_fmap. eauto.
  - auto.
Qed.

Lemma buscarLibro_en_inventario k b l :
  buscarLibro k b = Some l → l ∈ inventario b ∧ isbn l = k.
Proof.
  unfold buscarLibro.
  intros ([i y] & (Hi & Hy & _)%list_find_Some & ->)%fmap_Some.
  eauto using list_elem_of_lookup_2.
Qed.

(** X17. In every reachable state no two active loans are for the same
    book object, the book of every active loan is the inventory book that
    its ISBN resolves to, and there are never more active loans than books. *)
Theorem X17_un_prestamo_por_libro (w : Mundo) :
  alcanzable w →
  (∀ p q, p ∈ prestamosActivos (biblioteca w) →
          q ∈ prestamosActivos (biblioteca w) →
          libro_ref (libro p) = libro_ref (libro q) → p = q) ∧
  (∀ p, p ∈ prestamosActivos (biblioteca w) →
        libro p ∈ inventario (biblioteca w) ∧
        buscarLibro (isbn (libro p)) (biblioteca w) = Some (libro p)) ∧
  (prestamosActuales (biblioteca w) ≤ totalLibros (biblioteca w))%nat.
Proof.
  intros [H1 H2 H3 H4]%alcanzable_coherente. split_and!.
  - intros p q. by apply (NoDup_fmap_iguales (λ p, libro_ref (libro p))).
  - intros p Hp. split; [|auto].
    by apply (buscarLibro_en_inventario _ _ _ (H1 p Hp)).
  - unfold prestamosActuales, totalLibros.
    rewrite <- (length_fmap libro (prestamosActivos (biblioteca w))).
    apply submseteq_length, NoDup_submseteq.
    + apply (NoDup_fmap_1 libro_ref). by rewrite <- list_fmap_compose.
    + intros l (p & -> & Hp)%list_elem_of_fmap.
      by apply (buscarLibro_en_inventario _ _ _ (H1 p Hp)).
Qed.

Lemma mundoPrestado_alcanzable : alcanzable mundoPrestado.
Proof. apply alcanzable_correr, alcanzable_inicial. Qed.

Lemma X17_witness :
  (prestamosActuales (biblioteca mundoPrestado)
   ≤ totalLibros (biblioteca mundoPrestado))%nat.
Proof.
  apply (X17_un_prestamo_por_libro mundoPrestado mundoPrestado_alcanzable).
Defined.

(** X18. In every reachable state [obtenerPrestamosPorSocio(id)] is, in the
    same order, the loan collection of the member that [buscarSocio(id)]
    returns; a member registered under an id that was already taken never
    holds a loan. *)
Theorem X18_prestamos_por_socio (w : Mundo) :
  alcanzable w →
  (∀ idSocio indice socio,
     buscarSocio idSocio (biblioteca w) = Some (indice, socio) →
     obtenerPrestamosPorSocio idSocio (biblioteca w) = getPrestamos socio) ∧
  (∀ j s,
     socios (biblioteca w) !! j = Some s →
     indiceSocio (id s) (biblioteca w) ≠ Some j →
     prestamos s = []).
Proof.
  intros [H1 H2 H3 H4]%alcanzable_coherente. split.
  - intros idSocio i socio Hs.
    pose proof Hs as (Hi & Hid & _)%list_find_Some.
    specialize (H4 i socio Hi).
    rewrite Hid, (indiceSocio_Some _ _ _ _ Hs), decide_True in H4 by done.
    unfold getPrestamos. by rewrite H4.
  - intros j s Hj Hne. specialize (H4 j s Hj).
    by rewrite decide_False in H4.
Qed.

Lemma X18_witness :
  obtenerPrestamosPorSocio 1 (biblioteca mundoPrestado)
  = [nuevoPrestamo 2 instante0 PrestamoRegular elHobbit 1].
Proof.
  apply (proj1 (X18_prestamos_por_socio mundoPrestado mundoPrestado_alcanzable)
           1 0%nat
           {| clase_socio := SocioRegular; id := 1; nombre := "Ana";
              apellido := "Paz";
              prestamos := [nuevoPrestamo 2 instante0 PrestamoRegular
                              elHobbit 1] |}).
  vm_compute. reflexivity.
Defined.

(** X19. In every reachable state the library counts no overdue loan
    exactly when no registered member has an overdue loan. *)
Theorem X19_vencidos_biblioteca_y_socios (w : Mundo) (ahora : Z) :
  alcanzable w →
  (prestamosVencidos ahora (biblioteca w) = 0%nat ↔
   ∀ s, s ∈ socios (biblioteca w) → tieneLibrosVencidos ahora s = false).
Proof.
  intros [S1 S2 S3 S4 S5 S6]%alcanzable_sincronizado.
  unfold prestamosVencidos, obtenerPrestamosVencidos, tieneLibrosVencidos.
  rewrite length_zero_iff_nil. split.
  - intros Hnil s (j & Hj)%list_elem_of_lookup.
    destruct (existsb _ (prestamos s)) eqn:E; [|done].
    apply existsb_exists in E as (p & Hp%list_elem_of_In & Hv).
    assert (In p (List.filter (estaVencido ahora)
                    (prestamosActivos (biblioteca w)))) as Hin.
    { apply filter_In. split; [|done]. apply list_elem_of_In. eauto. }
    rewrite Hnil in Hin. destruct Hin.
  - intros Hs. apply filter_vacio. intros p Hp.
    destruct (S5 p Hp) as (j & s & Hj & Hps).
    specialize (Hs s (list_elem_of_lookup_2 _ _ _ Hj)).
    destruct (estaVencido ahora p) eqn:E; [|done].
    rewrite <- Hs. symmetry. apply existsb_exists. exists p.
    split; [by apply list_elem_of_In|done].
Qed.

Lemma X19_witness :
  tieneLibrosVencidos instante0
    {| clase_socio := SocioRegular; id := 1; nombre := "Ana";
       apellido := "Paz";
       prestamos := [nuevoPrestamo 2 instante0 PrestamoRegular elHobbit 1] |}
  = false.
Proof.
  apply (proj1 (X19_vencidos_biblioteca_y_socios mundoPrestado instante0
                  mundoPrestado_alcanzable)).
  - vm_compute. reflexivity.
  - vm_compute. constructor.
Defined.
End AlcanzableMas.

(** * Reports *)

Section InformesFacts.
Local Open Scope Z_scope.

Lemma insertarOrdenado_perm {A} (cmp : A → A → Z) x (l : list A) :
  insertarOrdenado cmp x l ≡ₚ x :: l.
Proof.
  induction l as [|y l IH]; simpl; [done|].
  destruct (cmp x y <=? 0); [done|]. rewrite IH. apply Permutation_swap.
Qed.

Lemma sort_perm {A} (cmp : A → A → Z) (l : list A) : sort cmp l ≡ₚ l.
Proof.
  induction l as [|x l IH]; simpl; [done|].
  rewrite insertarOrdenado_perm. by rewrite IH.
Qed.

Lemma insertarOrdenado_descendente {A} (clave : A → Z) x (l : list A) :
  StronglySorted (λ a b, clave b <= clave a) l →
  StronglySorted (λ a b, clave b <= clave a)
    (insertarOrdenado (λ a b, clave b - clave a) x l).
Proof.
  induction l as [|y l IH]; simpl; intros Hl.
  - repeat constructor.
  - apply StronglySorted_cons in Hl as [Hy Hl].
    destruct (Z.leb_spec (clave y - clave x) 0) as [Hc|Hc].
    + apply StronglySorted_cons. split; [|by apply StronglySorted_cons].
      constructor; [lia|]. eapply Forall_impl; [exact Hy|].
      simpl. intros z Hz. lia.
    + apply StronglySorted_cons. split; [|auto].
      rewrite insertarOrdenado_perm. constructor; [lia|done].
Qed.

Lemma sort_descendente {A} (clave : A → Z) (l : list A) :
  StronglySorted (λ a b, clave b <= clave a)
    (sort (λ a b, clave b - clave a) l).
Proof.
  induction l as [|x l IH]; simpl; [constructor|].
  by apply insertarOrdenado_descendente.
Qed.

Lemma sort_empatados {A} (cmp : A → A → Z) (l : list A) :
  (∀ x y, x ∈ l → y ∈ l → cmp x y = 0) → sort cmp l = l.
Proof.
  induction l as [|x l IH]; intros H; [done|]. simpl.
  rewrite IH by (intros; apply H; by right).
  destruct l as [|y l]; [done|]. simpl.
  by rewrite (H x y); [|by left|right; left].
Qed.

(** X20. [generarReporteMultas] lists, in descending order of the fine,
    exactly the members whose total fine is positive, each with its id,
    full name and fine; so a VIP member is never listed. *)
Theorem X20_reporte_multas (ahora : Z) (b : Biblioteca) :
  StronglySorted (λ a c, rm_multa c <= rm_multa a)
    (generarReporteMultas ahora b) ∧
  (∀ r, r ∈ generarReporteMultas ahora b ↔
        ∃ s, s ∈ socios b ∧ 0 < getMultaTotal ahora s ∧
             r = {| rm_socioId := id s;
                    rm_nombreCompleto := nombreCompleto s;
                    rm_multa := getMultaTotal ahora s |}) ∧
  (∀ s, s ∈ socios b → clase_socio s = SocioVIP →
        {| rm_socioId := id s; rm_nombreCompleto := nombreCompleto s;
           rm_multa := getMultaTotal ahora s |}
          ∉ generarReporteMultas ahora b).
Proof.
  assert (Hmem : ∀ r, r ∈ generarReporteMultas ahora b ↔
        ∃ s, s ∈ socios b ∧ 0 < getMultaTotal ahora s ∧
             r = {| rm_socioId := id s;
                    rm_nombreCompleto := nombreCompleto s;
                    rm_multa := getMultaTotal ahora s |}).
  { intros r. unfold generarReporteMultas. rewrite sort_perm.
    rewrite list_elem_of_In, filter_In, <- list_elem_of_In.
    rewrite list_elem_of_fmap, Z.gtb_ltb, Z.ltb_lt. split.
    - intros [(s & -> & Hs) Hm]. exists s. simpl in Hm. done.
    - intros (s & Hs & Hm & ->). simpl. split; [|done]. by exists s. }
  split_and!; [apply (sort_descendente rm_multa)|done|].
  intros s _ Hvip (s' & _ & Hpos & [= _ _ Hm])%Hmem.
  unfold getMultaTotal in Hm at 1. rewrite Hvip in Hm. lia.
Qed.

Lemma contadores_get_ausente k (m : list (string * Z)) :
  k ∉ fst <$> m → contadores_get k m = None.
Proof.
  intros Hk. unfold contadores_get.
  destruct (list_find _ m) as [[i [k' v]]|] eqn:E; [|done].
  apply list_find_Some in E as (Hi & Hkv & _). simpl in Hkv. subst k'.
  destruct Hk. apply list_elem_of_fmap. exists (k, v).
  eauto using list_elem_of_lookup_2.
Qed.

Lemma contadores_set_ausente k v (m : list (string * Z)) :
  k ∉ fst <$> m → contadores_set k v m = m ++ [(k, v)].
Proof.
  induction m as [|[k' v'] m IH]; [done|]. simpl.
  rewrite not_elem_of_cons. intros [Hne Hk].
  rewrite bool_decide_false by done. by rewrite IH.
Qed.

Lemma contarPrestamos_distintos (acc : list (string * Z)) (ps : list Prestamo) :
  NoDup ((fst <$> acc) ++ ((λ p, isbn (libro p)) <$> ps)) →
  foldl (λ contadores prestamo,
           let isbn_ := isbn (libro prestamo) in
           contadores_set isbn_ (oCero (contadores_get isbn_ contadores) + 1)
             contadores) acc ps
  = acc ++ ((λ p, (isbn (libro p), 1)) <$> ps).
Proof.
  revert acc. induction ps as [|p ps IH]; intros acc Hnd; simpl.
  - by rewrite app_nil_r.
  - assert (isbn (libro p) ∉ fst <$> acc) as Hk.
    { apply NoDup_app in Hnd as (_ & Hd & _). intros Hin.
      apply (Hd _ Hin). simpl. left. }
    rewrite contadores_get_ausente, contadores_set_ausente by done. simpl.
    rewrite IH.
    + by rewrite <- app_assoc.
    + rewrite fmap_app. simpl. rewrite <- app_assoc. done.
Qed.

(** X21. In every reachable state [generarReporteLibrosPopulares] has one
    entry per active loan, in the order of [prestamosActivos], each with the
    loan's book and the count 1: no book is ever counted twice. *)
Theorem X21_reporte_populares (w : Mundo) :
  alcanzable w →
  generarReporteLibrosPopulares (biblioteca w)
  = (λ p, {| lp_libro := Some (libro p); lp_vecesPrestado := 1 |})
      <$> prestamosActivos (biblioteca w).
Proof.
  intros Hw. pose proof (alcanzable_coherente w Hw) as [H1 H2 H3 H4].
  pose proof (alcanzable_sincronizado w Hw) as [S1 _ _ _ _ _].
  unfold generarReporteLibrosPopulares, contarPrestamos.
  rewrite contarPrestamos_distintos.
  - simpl. rewrite <- list_fmap_compose. rewrite sort_empatados.
    + apply list_fmap_ext. intros i p Hp. simpl.
      by rewrite (H1 p (list_elem_of_lookup_2 _ _ _ Hp)).
    + intros x y (p & -> & _)%list_elem_of_fmap (q & -> & _)%list_elem_of_fmap.
      done.
  - simpl. apply NoDup_fmap_2_strong; [|by apply (NoDup_fmap_1 prestamo_ref)].
    intros p q Hp Hq Hisbn.
    apply (NoDup_fmap_iguales (λ p, libro_ref (libro p)) _ p q H2 Hp Hq).
    pose proof (H1 p Hp) as Hlp. pose proof (H1 q Hq) as Hlq.
    rewrite Hisbn in Hlp. congruence.
Qed.

Lemma X21_witness :
  generarReporteLibrosPopulares (biblioteca mundoPrestado)
  = [{| lp_libro := Some elHobbit; lp_vecesPrestado := 1 |}].
Proof.
  rewrite (X21_reporte_populares mundoPrestado mundoPrestado_alcanzable).
  vm_compute. reflexivity.
Defined.
End InformesFacts.

(** * BuscadorUniversal: registering, removing and querying systems *)

Section BusquedaMas.
Import Busqueda.

Lemma Map_get_cons n k v (m : list (string * IBuscable)) :
  Map_get n ((k, v) :: m) = if decide (k = n) then Some v else Map_get n m.
Proof.
  unfold Map_get. cbn [list_find]. cbn [fst].
  destruct (decide (k = n)); [done|].
  by destruct (list_find _ m) as [[i kv]|].
Qed.

Lemma Map_get_set_eq n s (m : list (string * IBuscable)) :
  Map_get n (Map_set n s m) = Some s.
Proof.
  induction m as [|[k v] m IH]; cbn [Map_set].
  - by rewrite Map_get_cons, decide_True.
  - case_bool_decide as Hk; rewrite Map_get_cons.
    + by rewrite decide_True.
    + by rewrite decide_False.
Qed.

Lemma Map_get_set_ne n n' s (m : list (string * IBuscable)) :
  n ≠ n' → Map_get n' (Map_set n s m) = Map_get n' m.
Proof.
  intros Hne. induction m as [|[k v] m IH]; cbn [Map_set].
  - by rewrite Map_get_cons, decide_False.
  - case_bool_decide as Hk; rewrite !Map_get_cons.
    + subst k. by rewrite !decide_False.
    + by rewrite IH.
Qed.

Lemma Map_set_nombres n s (m : list (string * IBuscable)) :
  fst <$> Map_set n s m
  = if decide (n ∈ fst <$> m) then fst <$> m else (fst <$> m) ++ [n].
Proof.
  induction m as [|[k v] m IH]; cbn [Map_set].
  - rewrite decide_False; [done|]. rewrite fmap_nil. apply not_elem_of_nil.
  - case_bool_decide as Hk; rewrite !fmap_cons; cbn [fst].
    + subst k. by rewrite decide_True by left.
    + rewrite IH. destruct (decide (n ∈ fst <$> m)) as [Hin|Hin].
      * by rewrite decide_True by (by right).
      * rewrite decide_False; [done|].
        rewrite not_elem_of_cons. split; [congruence|done].
Qed.

Lemma Map_delete_elem n (m : list (string * IBuscable)) kv :
  kv ∈ Map_delete n m ↔ kv ∈ m ∧ fst kv ≠ n.
Proof.
  unfold Map_delete. rewrite list_elem_of_In, filter_In, <- list_elem_of_In.
  rewrite negb_true_iff, bool_decide_eq_false. done.
Qed.

Lemma Map_get_None n (m : list (string * IBuscable)) :
  Map_get n m = None ↔ n ∉ fst <$> m.
Proof.
  unfold Map_get. rewrite fmap_None, list_find_None, Forall_forall. split.
  - intros H ([k v] & -> & Hin)%list_elem_of_fmap. by apply (H _ Hin).
  - intros H [k v] Hin Hk. apply H, list_elem_of_fmap. by exists (k, v).
Qed.

Lemma Map_get_delete_ne n n' (m : list (string * IBuscable)) :
  n ≠ n' → Map_get n' (Map_delete n m) = Map_get n' m.
Proof.
  intros Hne. unfold Map_delete.
  induction m as [|[k v] m IH]; [done|]. cbn [List.filter fst].
  case_bool_decide as Hk; cbn [negb]; rewrite !Map_get_cons.
  - subst k. by rewrite decide_False.
  - by rewrite IH.
Qed.

(** X22. After [agregarSistema(n, s)], [buscarEnSistema(n, criterio)] is
    what [s.buscarPor(criterio)] gives, and queries of every other name are
    unaffected.  A name registered again keeps its position in
    [obtenerSistemasDisponibles] (a new name goes last), so the names stay
    without repetition. *)
Theorem X22_agregarSistema (n : string) (s : IBuscable)
    (m : list (string * IBuscable)) :
  (∀ criterio,
     buscarEnSistema n criterio (agregarSistema n s m) = buscarPor s criterio) ∧
  (∀ otro criterio, otro ≠ n →
     buscarEnSistema otro criterio (agregarSistema n s m)
     = buscarEnSistema otro criterio m) ∧
  obtenerSistemasDisponibles (agregarSistema n s m)
    = (if decide (n ∈ obtenerSistemasDisponibles m)
       then obtenerSistemasDisponibles m
       else obtenerSistemasDisponibles m ++ [n]) ∧
  (NoDup (obtenerSistemasDisponibles m) →
   NoDup (obtenerSistemasDisponibles (agregarSistema n s m))).
Proof.
  unfold buscarEnSistema, agregarSistema, obtenerSistemasDisponibles.
  split_and!.
  - intros criterio. by rewrite Map_get_set_eq.
  - intros otro criterio Hne. by rewrite Map_get_set_ne.
  - apply Map_set_nombres.
  - intros Hnd. rewrite Map_set_nombres. case_decide as Hin; [done|].
    apply NoDup_app. split; [done|]. split; [|apply NoDup_singleton].
    intros x Hx ->%list_elem_of_singleton. done.
Qed.

(** X23. After [eliminarSistema(n)], [buscarEnSistema(n, criterio)] throws
    "Sistema n no encontrado", [n] is no longer among the available systems
    and [buscarEnTodos] returns no result whose source is [n]; queries of
    every other name are unaffected. *)
Theorem X23_eliminarSistema (n : string) (m : list (string * IBuscable)) :
  (∀ criterio,
     buscarEnSistema n criterio (eliminarSistema n m)
     = inl (Error ("Sistema " +:+ n +:+ " no encontrado"))) ∧
  (n ∉ obtenerSistemasDisponibles (eliminarSistema n m)) ∧
  (∀ criterio r,
     r ∈ fst (buscarEnTodos criterio (eliminarSistema n m)) → fuente r ≠ n) ∧
  (∀ otro criterio, otro ≠ n →
     buscarEnSistema otro criterio (eliminarSistema n m)
     = buscarEnSistema otro criterio m).
Proof.
  unfold buscarEnSistema, eliminarSistema, obtenerSistemasDisponibles.
  assert (Hn : n ∉ fst <$> Map_delete n m).
  { intros ([k v] & -> & [_ Hk]%Map_delete_elem)%list_elem_of_fmap. done. }
  split_and!.
  - intros criterio. by rewrite (proj2 (Map_get_None n _) Hn).
  - done.
  - intros criterio r. unfold buscarEnTodos. rewrite buscarEnTodos_desde.
    simpl. rewrite list_elem_of_In, in_concat.
    intros (l & Hl%list_elem_of_In & Hr%list_elem_of_In).
    apply list_elem_of_fmap in Hl as ([k v] & -> & Hin). simpl in Hr.
    destruct (buscarPor v criterio) as [e|rs]; [by apply elem_of_nil in Hr|].
    apply list_elem_of_fmap in Hr as (x & -> & _). simpl.
    by apply Map_delete_elem in Hin as [_ Hk].
  - intros otro criterio Hne. by rewrite Map_get_delete_ne.
Qed.

Lemma filtrar_push nombre (rs : list Item) (acc : list ResultadoBusqueda) :
  foldl (λ resultados r, resultados ++ [etiquetar nombre r]) acc rs
  = acc ++ (etiquetar nombre <$> rs).
Proof.
  revert acc. induction rs as [|r rs IH]; intros acc; simpl.
  - by rewrite app_nil_r.
  - rewrite IH, <- app_assoc. reflexivity.
Qed.

Lemma filtrarEnTodos_desde condicion (sistemas : list (string * IBuscable))
    (acc : list ResultadoBusqueda * list Salida) :
  foldl (iteracionFiltrar condicion) acc sistemas
  = (fst acc ++
       concat ((λ entrada : string * IBuscable,
                  match filtrar (snd entrada) condicion with
                  | inr rs => etiquetar (fst entrada) <$> rs
                  | inl _ => []
                  end) <$> sistemas),
     snd acc ++
       concat ((λ entrada : string * IBuscable,
                  match filtrar (snd entrada) condicion with
                  | inr _ => []
                  | inl e => [ConsoleWarn "Error filtrando en " (fst entrada) e]
                  end) <$> sistemas)).
Proof.
  revert acc. induction sistemas as [|[nombre sistema] resto IH];
    intros [resultados consola]; simpl.
  - by rewrite !app_nil_r.
  - rewrite IH. simpl.
    destruct (filtrar sistema condicion) as [e|rs]; simpl.
    + by rewrite <- app_assoc.
    + by rewrite filtrar_push, <- app_assoc.
Qed.

(** X24. [filtrarEnTodos] returns, in registration order, the results of
    every system whose [filtrar] returns, each tagged with the system's name
    and its type label; a system whose [filtrar] throws contributes no
    result and one console warning, and does not stop the others. *)
Theorem X24_filtrarEnTodos_resiliente (condicion : Item → bool)
    (sistemas : list (string * IBuscable)) :
  fst (filtrarEnTodos condicion sistemas)
    = concat ((λ entrada : string * IBuscable,
                 match filtrar (snd entrada) condicion with
                 | inr rs =>
                     (λ r, {| tipo := obtenerTipoResultado r; resultado := r;
                              fuente := fst entrada |}) <$> rs
                 | inl _ => []
                 end) <$> sistemas) ∧
  snd (filtrarEnTodos condicion sistemas)
    = concat ((λ entrada : string * IBuscable,
                 match filtrar (snd entrada) condicion with
                 | inr _ => []
                 | inl e => [ConsoleWarn "Error filtrando en " (fst entrada) e]
                 end) <$> sistemas).
Proof.
  unfold filtrarEnTodos. rewrite filtrarEnTodos_desde. done.
Qed.

Lemma filter_fuente_propio n (rs : list Item) :
  List.filter (λ r, bool_decide (fuente r = n)) (etiquetar n <$> rs)
  = etiquetar n <$> rs.
Proof.
  induction rs as [|r rs IH]; [done|]. rewrite fmap_cons. cbn [List.filter].
  rewrite bool_decide_true by done. by rewrite IH.
Qed.

Lemma filter_fuente_ajeno n k (rs : list Item) :
  k ≠ n →
  List.filter (λ r, bool_decide (fuente r = n)) (etiquetar k <$> rs) = [].
Proof.
  intros Hne. induction rs as [|r rs IH]; [done|].
  rewrite fmap_cons. cbn [List.filter].
  by rewrite bool_decide_false by done.
Qed.

Local Abbreviation aporteDe criterio :=
  (λ entrada : string * IBuscable,
     match buscarPor (snd entrada) criterio with
     | inr rs =>
         (λ r, {| tipo := obtenerTipoResultado r; resultado := r;
                  fuente := fst entrada |}) <$> rs
     | inl _ => []
     end).

Lemma filter_fuente_ausente criterio n (m : list (string * IBuscable)) :
  n ∉ fst <$> m →
  List.filter (λ r, bool_decide (fuente r = n))
    (concat (aporteDe criterio <$> m)) = [].
Proof.
  induction m as [|[k v] m IH]; [done|].
  rewrite !fmap_cons, not_elem_of_cons, concat_cons, List.filter_app.
  cbn beta. cbn [fst snd]. intros [Hne Hin]. rewrite IH, app_nil_r by done.
  destruct (buscarPor v criterio) as [e|rs]; [done|].
  apply (filter_fuente_ajeno n k). congruence.
Qed.

Lemma filter_fuente_presente criterio n s (m : list (string * IBuscable)) :
  NoDup (fst <$> m) → (n, s) ∈ m →
  Map_get n m = Some s ∧
  List.filter (λ r, bool_decide (fuente r = n))
    (concat (aporteDe criterio <$> m)) = aporteDe criterio (n, s).
Proof.
  induction m as [|[k v] m IH]; [by intros _ ?%elem_of_nil|].
  rewrite !fmap_cons, NoDup_cons, concat_cons, List.filter_app, Map_get_cons.
  cbn beta. cbn [fst snd]. intros [Hk Hnd] [[= <- <-]|Hin]%elem_of_cons.
  - rewrite decide_True by done. split; [done|].
    rewrite filter_fuente_ausente by done. rewrite app_nil_r.
    destruct (buscarPor s criterio); [done|].
    apply (filter_fuente_propio n).
  - assert (k ≠ n) as Hne.
    { intros ->. apply Hk, list_elem_of_fmap. by exists (n, s). }
    rewrite decide_False by done.
    destruct (IH Hnd Hin) as [IH1 IH2]. split; [done|].
    cbn beta in IH2. cbn [fst snd] in IH2. rewrite IH2.
    destruct (buscarPor v criterio) as [e|rs]; [done|].
    pose proof (filter_fuente_ajeno n k rs Hne) as E.
    unfold etiquetar in E. by rewrite E.
Qed.

(** X25. When the registered names are without repetition, the results of
    [buscarEnTodos] whose source is [n] are exactly the results of
    [buscarEnSistema(n)], tagged, and there are none if that system throws. *)
Theorem X25_buscarEnTodos_por_fuente (criterio n : string) (s : IBuscable)
    (m : list (string * IBuscable)) :
  NoDup (obtenerSistemasDisponibles m) →
  (n, s) ∈ m →
  buscarEnSistema n criterio m = buscarPor s criterio ∧
  List.filter (λ r, bool_decide (fuente r = n))
    (fst (buscarEnTodos criterio m))
  = match buscarPor s criterio with
    | inr rs =>
        (λ r, {| tipo := obtenerTipoResultado r; resultado := r;
                 fuente := n |}) <$> rs
    | inl _ => []
    end.
Proof.
  intros Hnd Hin.
  destruct (filter_fuente_presente criterio n s m Hnd Hin) as [Hget Hfil].
  unfold buscarEnSistema, buscarEnTodos.
  rewrite buscarEnTodos_desde, Hget. split; [done|].
  cbn [fst]. rewrite app_nil_l. exact Hfil.
Qed.

Lemma X25_witness :
  List.filter (λ r, bool_decide (fuente r = "Base de Conocimiento"))
    (fst (buscarEnTodos "Tolkien" tresSistemas))
  = [{| tipo := "Artículo Académico";
        resultado := ItemArticuloAcademico ensayoTolkien;
        fuente := "Base de Conocimiento" |}].
Proof.
  apply (X25_buscarEnTodos_por_fuente "Tolkien" "Base de Conocimiento"
           (sistemaFijo [ItemArticuloAcademico ensayoTolkien]) tresSistemas).
  - vm_compute. repeat constructor; vm_compute; inversion 1; subst;
      repeat match goal with H : _ ∈ _ |- _ => inversion H; clear H; subst end.
  - vm_compute. do 2 right. left.
Defined.
End BusquedaMas.

(** * CatalogoBiblioteca *)

Section CatalogoFacts.
Import Busqueda.

Lemma prefix_append sub post : String.prefix sub (sub +:+ post) = true.
Proof.
  induction sub as [|a sub IH]; simpl; [by destruct post|].
  by destruct (Ascii.ascii_dec a a).
Qed.

Lemma includes_prefix s sub : String.prefix sub s = true → includes s sub = true.
Proof. intros H. destruct s; cbn [includes]; by rewrite H. Qed.

Lemma includes_append pre sub post :
  includes (pre +:+ sub +:+ post) sub = true.
Proof.
  induction pre as [|a pre IH].
  - apply includes_prefix.
    change (String.prefix sub (sub +:+ post) = true). apply prefix_append.
  - change (includes (String a (pre +:+ sub +:+ post)) sub = true).
    cbn [includes]. rewrite IH. apply orb_true_r.
Qed.

Lemma includes_inv s sub :
  includes s sub = true → ∃ pre post, s = pre +:+ sub +:+ post.
Proof.
  assert (Hpre : ∀ sub s, String.prefix sub s = true → ∃ post, s = sub +:+ post).
  { clear. induction sub as [|a sub IH]; intros s.
    - intros _. by exists s.
    - destruct s as [|b s]; simpl; [done|].
      destruct (Ascii.ascii_dec a b) as [->|]; [|done].
      intros (post & ->)%IH. by exists post. }
  induction s as [|a s IH]; cbn [includes].
  - rewrite orb_false_r. intros (post & ->)%Hpre. by exists "", post.
  - intros [(post & ->)%Hpre|(pre & post & ->)%IH]%orb_true_iff.
    + by exists "", post.
    + by exists (String a pre), post.
Qed.

Lemma append_vacio s : s +:+ "" = s.
Proof.
  induction s as [|a s IH]; [done|].
  change (String a (s +:+ "") = String a s). by rewrite IH.
Qed.

Lemma includes_vacio s : includes s "" = true.
Proof. apply (includes_append "" "" s). Qed.

Lemma includes_propio s : includes s s = true.
Proof.
  pose proof (includes_append "" s "") as H.
  change (includes (s +:+ "") s = true) in H. by rewrite append_vacio in H.
Qed.

Lemma catalogo_buscarPor_sublist (toLowerCase : string → string)
    (libros : list Libro) criterio :
  CatalogoBiblioteca_buscarPor toLowerCase libros criterio `sublist_of` libros.
Proof.
  unfold CatalogoBiblioteca_buscarPor.
  induction libros as [|l ls IH]; simpl; [constructor|].
  destruct (_ || _ || _); by constructor.
Qed.

Lemma catalogo_buscarPor_isbn (toLowerCase : string → string)
    (libros : list Libro) criterio l :
  l ∈ libros → includes (isbn l) criterio = true →
  l ∈ CatalogoBiblioteca_buscarPor toLowerCase libros criterio.
Proof.
  intros Hl Hi. unfold CatalogoBiblioteca_buscarPor.
  apply list_elem_of_In, filter_In. split; [by apply list_elem_of_In|].
  rewrite Hi. apply orb_true_r.
Qed.

Lemma catalogo_buscarPor_vacio (toLowerCase : string → string)
    (libros : list Libro) :
  CatalogoBiblioteca_buscarPor toLowerCase libros "" = libros.
Proof.
  unfold CatalogoBiblioteca_buscarPor.
  induction libros as [|l ls IH]; simpl; [done|].
  rewrite includes_vacio, orb_true_r. by rewrite IH.
Qed.

(** X26. Whatever [toLowerCase] does, the catalogue's [buscarPor] returns
    books of the catalogue in catalogue order, and among them every book
    whose ISBN contains the criterion as it is written: in particular every
    book for the empty criterion, and each book for its own ISBN. *)
Theorem X26_catalogo_buscarPor (toLowerCase : string → string)
    (libros : list Libro) :
  (∀ criterio,
     CatalogoBiblioteca_buscarPor toLowerCase libros criterio
       `sublist_of` libros) ∧
  (∀ criterio l pre post,
     l ∈ libros → isbn l = pre +:+ criterio +:+ post →
     l ∈ CatalogoBiblioteca_buscarPor toLowerCase libros criterio) ∧
  CatalogoBiblioteca_buscarPor toLowerCase libros "" = libros ∧
  (∀ l, l ∈ libros →
     l ∈ CatalogoBiblioteca_buscarPor toLowerCase libros (isbn l)).
Proof.
  split_and!.
  - apply catalogo_buscarPor_sublist.
  - intros criterio l pre post Hl Hi. apply catalogo_buscarPor_isbn; [done|].
    rewrite Hi. apply includes_append.
  - apply catalogo_buscarPor_vacio.
  - intros l Hl. apply catalogo_buscarPor_isbn; [done|]. apply includes_propio.
Qed.

(** X27. Registered as a search system, the catalogue never throws: in
    [buscarEnTodos] it contributes its matches as results of type "Libro"
    under its registered name and leaves no warning, so a universal search
    for the empty criterion over the catalogue alone lists the whole
    catalogue. *)
Theorem X27_catalogo_en_buscador (toLowerCase : string → string)
    (libros : list Libro) (nombre criterio : string) :
  buscarEnTodos criterio
    (agregarSistema nombre (CatalogoBiblioteca toLowerCase libros) [])
  = ((λ l, {| tipo := "Libro"; resultado := ItemLibro l; fuente := nombre |})
       <$> CatalogoBiblioteca_buscarPor toLowerCase libros criterio, []) ∧
  fst (buscarEnTodos ""
         (agregarSistema nombre (CatalogoBiblioteca toLowerCase libros) []))
  = (λ l, {| tipo := "Libro"; resultado := ItemLibro l; fuente := nombre |})
      <$> libros.
Proof.
  assert (H : ∀ c, buscarEnTodos c
    (agregarSistema nombre (CatalogoBiblioteca toLowerCase libros) [])
  = ((λ l, {| tipo := "Libro"; resultado := ItemLibro l; fuente := nombre |})
       <$> CatalogoBiblioteca_buscarPor toLowerCase libros c, [])).
  { intros c. unfold buscarEnTodos, agregarSistema. cbn [Map_set].
    rewrite buscarEnTodos_desde. cbn [fmap list_fmap concat fst snd].
    cbn beta. cbn [fst snd buscarPor CatalogoBiblioteca].
    rewrite !app_nil_r, !app_nil_l. f_equal.
    by rewrite <- list_fmap_compose. }
  split; [apply H|]. rewrite H. cbn [fst].
  by rewrite catalogo_buscarPor_vacio.
Qed.
End CatalogoFacts.
